(** * CryptoTrading: the trend-following backtester of [backtest_functions.py]

    A shallow embedding of [update_position], [trend_following],
    [max_drawdown], [return_metrics] and [grid_search], and of the pandas
    operations they call, followed by the properties of the backtesting
    engine.

    Numbers.  The program computes on IEEE 754 doubles.  They are embedded
    as exact rationals extended with the three special values the program
    can produce and test, NaN and the two infinities, with the IEEE rules
    for them (a comparison with NaN is false, [x / 0] is an infinity or NaN,
    [inf - inf] and [0 * inf] are NaN).  Rounding, overflow and the sign of
    zero are not part of the model.  [np.sqrt] and [**] have no rational
    counterpart; the functions that use them take them as parameters. *)

From Stdlib Require Import QArith Qcanon ZArith Lia Lqa.
From stdpp Require Import base decidable option numbers list strings gmap pretty.

Open Scope Qc_scope.

(** ** Floating-point values *)

Inductive float : Type :=
| NaN
| PInf
| NInf
| Fin (q : Qc).

#[global] Instance float_eq_dec : EqDecision float.
Proof. solve_decision. Defined.

Definition of_Z (z : Z) : float := Fin (Q2Qc (inject_Z z)).
Definition of_nat (n : nat) : float := of_Z (Z.of_nat n).

Abbreviation f0 := (Fin 0).
Abbreviation f1 := (Fin 1).

Definition is_nan (x : float) : bool :=
  match x with NaN => true | _ => false end.

Definition is_fin (x : float) : bool :=
  match x with Fin _ => true | _ => false end.

Definition fneg (x : float) : float :=
  match x with
  | NaN => NaN
  | PInf => NInf
  | NInf => PInf
  | Fin q => Fin (- q)
  end.

Definition fadd (x y : float) : float :=
  match x, y with
  | NaN, _ | _, NaN => NaN
  | PInf, NInf | NInf, PInf => NaN
  | PInf, _ | _, PInf => PInf
  | NInf, _ | _, NInf => NInf
  | Fin a, Fin b => Fin (a + b)
  end.

Definition fsub (x y : float) : float := fadd x (fneg y).

(** An infinity with the sign of [q], NaN for [q = 0]. *)
Definition signed_inf (q : Qc) : float :=
  match q ?= 0 with
  | Gt => PInf
  | Lt => NInf
  | Eq => NaN
  end.

Definition fmul (x y : float) : float :=
  match x, y with
  | NaN, _ | _, NaN => NaN
  | PInf, PInf | NInf, NInf => PInf
  | PInf, NInf | NInf, PInf => NInf
  | PInf, Fin q | Fin q, PInf => signed_inf q
  | NInf, Fin q | Fin q, NInf => signed_inf (- q)
  | Fin a, Fin b => Fin (a * b)
  end.

(** Division never raises on numpy doubles: a zero divisor gives an infinity
    with the sign of the dividend, or NaN for [0 / 0]. *)
Definition fdiv (x y : float) : float :=
  match x, y with
  | NaN, _ | _, NaN => NaN
  | (PInf | NInf), (PInf | NInf) => NaN
  | PInf, Fin q => match q ?= 0 with Lt => NInf | _ => PInf end
  | NInf, Fin q => match q ?= 0 with Lt => PInf | _ => NInf end
  | Fin _, (PInf | NInf) => f0
  | Fin a, Fin b => if decide (b = 0) then signed_inf a else Fin (a / b)
  end.

(** [x < y]; false as soon as one side is NaN. *)
Definition flt (x y : float) : bool :=
  match x, y with
  | NaN, _ | _, NaN => false
  | _, NInf => false
  | NInf, _ => true
  | PInf, _ => false
  | Fin _, PInf => true
  | Fin a, Fin b => bool_decide (a < b)
  end.

(** [x <= y]; false as soon as one side is NaN. *)
Definition fle (x y : float) : bool :=
  match x, y with
  | NaN, _ | _, NaN => false
  | NInf, _ => true
  | _, PInf => true
  | _, NInf => false
  | PInf, _ => false
  | Fin a, Fin b => bool_decide (a <= b)
  end.

Definition fgt (x y : float) : bool := flt y x.

Definition fmax (x y : float) : float := if flt x y then y else x.

(** ** pandas Series

    A Series is the list of its values in index order.  All Series of one
    run share the index of the input frame, so labels are left out.

    The operations follow the pandas documentation.  The moving averages
    and [pct_change] are taken over the price column, which the downloader
    delivers without missing values; a NaN among their inputs simply
    propagates here.  The operations the program applies to its own
    columns, whose first row is NaN, skip NaN as pandas does. *)

Abbreviation Series := (list float).

Definition fsum (s : Series) : float := foldl fadd f0 s.

(** [s.rolling(w).mean()]: the mean of the trailing [w] values, NaN until
    [w] values are there. *)
Definition rolling_mean (w : nat) (s : Series) : Series :=
  imap (fun t _ =>
          if decide (t + 1 < w)%nat then NaN
          else fdiv (fsum (take w (drop (t + 1 - w) s))) (of_nat w)) s.

(** [s.ewm(span=w).mean()] with the default [adjust=True]:
    [y_t = (x_t + d x_(t-1) + ... + d^t x_0) / (1 + d + ... + d^t)],
    [d = 1 - alpha], [alpha = 2 / (w + 1)].  The two sums are carried along
    the series. *)
Fixpoint ewm_from (d num den : float) (s : Series) : Series :=
  match s with
  | [] => []
  | x :: s' =>
      let num' := fadd x (fmul d num) in
      let den' := fadd f1 (fmul d den) in
      fdiv num' den' :: ewm_from d num' den' s'
  end.

Definition ewm_alpha (w : nat) : float := fdiv (of_Z 2) (fadd (of_nat w) f1).

Definition ewm_mean (w : nat) (s : Series) : Series :=
  ewm_from (fsub f1 (ewm_alpha w)) f0 f0 s.

(** [s.shift(1)]: every value moves one place down, NaN enters at the top
    and the last value drops out. *)
Definition shift1 (s : Series) : Series := take (length s) (NaN :: s).

(** [s.pct_change()], which pandas computes as [s / s.shift(1) - 1]. *)
Definition pct_change (s : Series) : Series :=
  zip_with (fun x p => fsub (fdiv x p) f1) s (shift1 s).

(** Element-wise arithmetic of two Series over the same index. *)
Definition smul (a b : Series) : Series := zip_with fmul a b.
Definition sdiv (a b : Series) : Series := zip_with fdiv a b.

(** [cumprod] and [cummax] skip NaN: a NaN entry stays NaN and leaves the
    running value untouched. *)
Fixpoint cumprod_from (acc : float) (s : Series) : Series :=
  match s with
  | [] => []
  | x :: s' =>
      if is_nan x then NaN :: cumprod_from acc s'
      else fmul acc x :: cumprod_from (fmul acc x) s'
  end.

Definition cumprod (s : Series) : Series := cumprod_from f1 s.

Fixpoint cummax_from (acc : float) (s : Series) : Series :=
  match s with
  | [] => []
  | x :: s' =>
      if is_nan x then NaN :: cummax_from acc s'
      else fmax acc x :: cummax_from (fmax acc x) s'
  end.

Definition cummax (s : Series) : Series := cummax_from NInf s.

Definition dropna (s : Series) : Series :=
  filter (fun x => is_nan x = false) s.

(** [s.max()]: the largest value that is not NaN, NaN when there is none. *)
Definition smax (s : Series) : float :=
  match dropna s with
  | [] => NaN
  | x :: l => foldl fmax x l
  end.

Section Sqrt.
Variable fsqrt : float -> float.

(** [s.std()]: sample standard deviation (ddof = 1) of the values that
    are not NaN; NaN with fewer than two of them. *)
Definition sstd (s : Series) : float :=
  let v := dropna s in
  let n := length v in
  if decide (n <= 1)%nat then NaN
  else
    let avg := fdiv (fsum v) (of_nat n) in
    let sqr := fsum ((fun x => fmul (fsub avg x) (fsub avg x)) <$> v) in
    fsqrt (fdiv sqr (of_nat (n - 1))).
End Sqrt.

(** ** Exceptions and the interpreter state *)

Inductive exn : Type :=
| KeyError
| IndexError
| ValueError
| UnboundLocalError
| ZeroDivisionError.

Inductive result (A : Type) : Type :=
| Ok (a : A)
| Raise (e : exn).
Arguments Ok {A} a.
Arguments Raise {A} e.

(** A DataFrame: the length of its index and its columns by name. *)
Record Frame : Type := mkFrame {
  index_len : nat;
  columns : gmap string Series
}.

(** DataFrames are objects: a variable holds a reference into the store. *)
Abbreviation loc := nat.

(** The module-level variable [position] and the DataFrames alive. *)
Record World : Type := mkWorld {
  position : Z;
  frames : list Frame
}.

Definition M (A : Type) : Type := World -> result (A * World).

Definition ret {A} (a : A) : M A := fun w => Ok (a, w).

Definition bind {A B} (m : M A) (k : A -> M B) : M B :=
  fun w => match m w with
           | Ok (a, w') => k a w'
           | Raise e => Raise e
           end.

Definition raise {A} (e : exn) : M A := fun _ => Raise e.

#[global] Instance M_ret : MRet M := @ret.
#[global] Instance M_bind : MBind M := fun A B k m => bind m k.

Definition get_position : M Z := fun w => Ok (position w, w).

Definition set_position (p : Z) : M unit :=
  fun w => Ok (tt, mkWorld p (frames w)).

Fixpoint mapM {A B} (f : A -> M B) (l : list A) : M (list B) :=
  match l with
  | [] => ret []
  | a :: l' => b ← f a; bs ← mapM f l'; ret (b :: bs)
  end.

(** [df.copy()] *)
Definition copy (df : loc) : M loc :=
  fun w => match frames w !! df with
           | Some f => Ok (length (frames w), mkWorld (position w) (frames w ++ [f]))
           | None => Raise KeyError
           end.

Definition get_frame (df : loc) : M Frame :=
  fun w => match frames w !! df with
           | Some f => Ok (f, w)
           | None => Raise KeyError
           end.

(** [df[c]] *)
Definition getcol (df : loc) (c : string) : M Series :=
  f ← get_frame df;
  match columns f !! c with
  | Some s => ret s
  | None => raise KeyError
  end.

Definition set_column (c : string) (s : Series) (f : Frame) : Frame :=
  mkFrame (index_len f) (<[c := s]> (columns f)).

(** [df[c] = s], in place *)
Definition setcol (df : loc) (c : string) (s : Series) : M unit :=
  fun w => match frames w !! df with
           | Some f => Ok (tt, mkWorld (position w) (<[df := set_column c s f]> (frames w)))
           | None => Raise KeyError
           end.

(** [x / y] on Python's own numbers ([int], [float]), which raises on a zero
    divisor where numpy's doubles do not. *)
Definition pydiv (x y : float) : M float :=
  if decide (y = f0) then raise ZeroDivisionError else ret (fdiv x y).

(** [len(df)] *)
Definition len (df : loc) : M nat := f ← get_frame df; ret (index_len f).

(** [s.iloc[-1]] *)
Definition iloc_last (s : Series) : M float :=
  match last s with
  | Some x => ret x
  | None => raise IndexError
  end.

(** The row of a frame at position [i], as [df.apply(..., axis=1)] hands it
    to its function: a Series indexed by the column names. *)
Definition row_of (f : Frame) (i : nat) : gmap string float :=
  omap (fun s : Series => s !! i) (columns f).

(** [row[c]] *)
Definition getitem (row : gmap string float) (c : string) : M float :=
  match row !! c with
  | Some x => ret x
  | None => raise KeyError
  end.

(** [df.apply(fn, axis=1)]: [fn] is called on the rows in index order. *)
Definition apply_rows {B} (df : loc) (fn : gmap string float -> M B) : M (list B) :=
  f ← get_frame df;
  mapM (fun i => fn (row_of f i)) (seq 0 (index_len f)).

(** ** The backtester *)

Definition update_position (row : gmap string float)
    (price_col SMA_col EMA_col : string) : M Z :=
  close ← getitem row price_col;
  sma ← getitem row SMA_col;
  ema ← getitem row EMA_col;
  pos ← get_position;
  (if (pos =? 0)%Z then
     if fgt close sma && fgt close ema then set_position 1 else ret tt
   else if (pos =? 1)%Z then
     if fle close sma || fle close ema then set_position 0 else ret tt
   else ret tt);;
  get_position.

(** [span] must be at least 1, else [ewm] raises. *)
Definition ewm_span_mean (w : nat) (s : Series) : M Series :=
  if decide (w < 1)%nat then raise ValueError else ret (ewm_mean w s).

Definition trend_following (df : loc) (price_col strategy_col : string)
    (window : nat) : M loc :=
  set_position 0;;
  df ← copy df;
  let SMA_col := "SMA_" +:+ pretty window in
  let EMA_col := "EMA_" +:+ pretty window in
  p ← getcol df price_col;
  setcol df SMA_col (rolling_mean window p);;
  p ← getcol df price_col;
  e ← ewm_span_mean window p;
  setcol df EMA_col e;;
  sig ← apply_rows df (fun row => update_position row price_col SMA_col EMA_col);
  setcol df "position" (shift1 (of_Z <$> sig));;
  p ← getcol df price_col;
  pos ← getcol df "position";
  setcol df strategy_col (smul (pct_change p) pos);;
  ret df.

Definition max_drawdown (df : loc) (strategy_col : string) : M float :=
  let cum_col := "cumulative_return_" +:+ strategy_col in
  r ← getcol df strategy_col;
  setcol df cum_col ((fun x => fsub x f1) <$> cumprod (fadd f1 <$> r));;
  c ← getcol df cum_col;
  c' ← getcol df cum_col;
  setcol df "drawdown"
    (fsub f1 <$> sdiv (fadd f1 <$> c) (fadd f1 <$> cummax c'));;
  d ← getcol df "drawdown";
  ret (smax d).

Section Metrics.
(** [np.sqrt] and the power operator [**] of a double. *)
Variable fsqrt : float -> float.
Variable fpow : float -> float -> float.

Definition periods_per_year (frequency : string) : M float :=
  if decide (frequency = "daily") then ret (of_Z 365)
  else if decide (frequency = "hourly") then ret (of_Z (365 * 24))
  else if decide (frequency = "5-minute") then
    ret (fmul (fmul (fdiv (of_Z 60) (of_Z 5)) (of_Z 365)) (of_Z 24))
  else raise UnboundLocalError.

Definition return_metrics (df : loc) (price_col strategy_col frequency : string)
    : M (float * float * float * float * float) :=
  let cum_return_col := "cumulative_" +:+ strategy_col in
  r ← getcol df strategy_col;
  setcol df cum_return_col ((fun x => fsub x f1) <$> cumprod (fadd f1 <$> r));;
  T ← len df;
  h ← periods_per_year frequency;
  n_years ← pydiv (of_nat T) h;
  c ← getcol df cum_return_col;
  total_performance ← iloc_last c;
  let v_initial := of_Z 100 in
  c ← getcol df cum_return_col;
  x ← iloc_last c;
  let v_final := fmul (of_Z 100) (fadd f1 x) in
  e ← pydiv f1 n_years;
  let annualized_return := fsub (fpow (fdiv v_final v_initial) e) f1 in
  p ← getcol df price_col;
  let annualized_vol := fmul (sstd fsqrt p) (fsqrt h) in
  let sharpe_ratio := fdiv annualized_return annualized_vol in
  max_dd ← max_drawdown df strategy_col;
  ret (total_performance, annualized_return, annualized_vol, sharpe_ratio, max_dd).

(** The local variables of [grid_search]'s loop. *)
Record search_state : Type := mkSearch {
  optimal_window : option nat;
  max_objective_value : float;
  results : list (nat * float)
}.

Definition grid_step (data : loc) (price_col strategy_col : string)
    (st : search_state) (window_size : nat) : M search_state :=
  df ← trend_following data price_col strategy_col window_size;
  m ← return_metrics df price_col strategy_col "daily";
  let '(_, _, _, sharpe_ratio, max_drawdown) := m in
  let objective_value := fdiv sharpe_ratio max_drawdown in
  let results' := results st ++ [(window_size, objective_value)] in
  if fgt objective_value (max_objective_value st)
  then ret (mkSearch (Some window_size) objective_value results')
  else ret (mkSearch (optimal_window st) (max_objective_value st) results').

Fixpoint foldM {A B} (f : A -> B -> M A) (a : A) (l : list B) : M A :=
  match l with
  | [] => ret a
  | b :: l' => a' ← f a b; foldM f a' l'
  end.

(** The loop of [grid_search], up to the [return]. *)
Definition grid_loop (data : loc) (price_col strategy_col : string)
    (window_range : list nat) : M search_state :=
  foldM (grid_step data price_col strategy_col)
        (mkSearch None NInf []) window_range.

Definition grid_search (data : loc) (price_col strategy_col : string)
    (window_range : list nat) : M (option nat) :=
  st ← grid_loop data price_col strategy_col window_range;
  ret (optimal_window st).
End Metrics.

(** [range(10, 201, 10)] *)
Definition default_window_range : list nat :=
  (fun i => 10 * i)%nat <$> seq 1 20.

(** ** An executable stand-in for [np.sqrt] and [**]

    Used to run the program on concrete frames.  Square roots and roots are
    rounded down to [root_bits] binary digits; powers with an integral
    exponent are exact. *)

Definition root_bits : Z := 52.

(** The largest [r] in [[lo, hi)] with [r ^ k <= n], by bisection. *)
Fixpoint root_bisect (fuel : nat) (k : positive) (n lo hi : Z) : Z :=
  match fuel with
  | O => lo
  | S fuel' =>
      if (hi - lo <=? 1)%Z then lo
      else
        let mid := ((lo + hi) / 2)%Z in
        if (mid ^ Zpos k <=? n)%Z then root_bisect fuel' k n mid hi
        else root_bisect fuel' k n lo mid
  end.

Definition Zroot (k : positive) (n : Z) : Z :=
  let hi := (2 ^ (Z.log2 n / Zpos k + 1))%Z in
  root_bisect (S (Z.to_nat (Z.log2 hi))) k n 0 hi.

(** The [k]-th root of a rational [q >= 0], rounded down. *)
Definition Qroot (k : positive) (q : Qc) : Qc :=
  let n := Qnum q in
  let d := Zpos (Qden q) in
  let s := (2 ^ root_bits)%Z in
  Q2Qc (Qmake (Zroot k (n * d ^ (Zpos k - 1) * s ^ Zpos k)) (Qden q * Z.to_pos s)).

Definition fsqrt_model (x : float) : float :=
  match x with
  | NaN | NInf => NaN
  | PInf => PInf
  | Fin q => if decide (q < 0) then NaN else Fin (Qroot 2 q)
  end.

(** [a ^ z] for an integer [z]; [0] to a negative power is left to the
    caller. *)
Definition Qc_zpow (a : Qc) (z : Z) : Qc :=
  match z with
  | Z0 => 1
  | Zpos p => Qcpower a (Pos.to_nat p)
  | Zneg p => / Qcpower a (Pos.to_nat p)
  end.

(** [a ** b] for finite [a] and [b], [b = n / d] in lowest terms. *)
Definition fpow_fin (a b : Qc) : float :=
  let n := Qnum b in
  let d := Qden b in
  match a ?= 0 with
  | Eq => match n with Z0 => f1 | Zpos _ => f0 | Zneg _ => PInf end
  | Gt => Fin (Qc_zpow (if decide (d = 1%positive) then a else Qroot d a) n)
  | Lt => if decide (d = 1%positive) then Fin (Qc_zpow a n) else NaN
  end.

(** [x ** y]; as in C, [1 ** y] and [x ** 0] are 1 for every [x] and [y],
    NaN included. *)
Definition fpow_model (x y : float) : float :=
  if decide (x = f1) then f1
  else if decide (y = f0) then f1
  else match x, y with
       | NaN, _ | _, NaN => NaN
       | PInf, Fin b => if decide (0 < b) then PInf else f0
       | NInf, Fin b =>
           if decide (0 < b)
           then (if Z.odd (Qnum b) && bool_decide (Qden b = 1%positive)
                 then NInf else PInf)
           else f0
       | Fin a, Fin b => fpow_fin a b
       | Fin a, PInf =>
           if decide (a * a < 1) then f0 else if decide (a = -1) then f1 else PInf
       | Fin a, NInf =>
           if decide (a * a < 1) then PInf else if decide (a = -1) then f1 else f0
       | (PInf | NInf), PInf => PInf
       | (PInf | NInf), NInf => f0
       end.

(** ** The position state machine, without the interpreter state

    What one call of [update_position] makes of the current position, and
    the values its successive calls return over the rows of a frame. *)

Definition next_position (pos : Z) (close sma ema : float) : Z :=
  if (pos =? 0)%Z then
    if fgt close sma && fgt close ema then 1%Z else pos
  else if (pos =? 1)%Z then
    if fle close sma || fle close ema then 0%Z else pos
  else pos.

Fixpoint signals (pos : Z) (c s e : Series) : list Z :=
  match c, s, e with
  | x :: c', y :: s', z :: e' =>
      let pos' := next_position pos x y z in
      pos' :: signals pos' c' s' e'
  | _, _, _ => []
  end.

(** The position the machine is in when it reads row [t]. *)
Definition position_before (pos : Z) (sig : list Z) (t : nat) : Z :=
  match t with
  | O => pos
  | S t' => default pos (sig !! t')
  end.

Definition final_position (pos : Z) (sig : list Z) : Z := default pos (last sig).

Definition SMA_name (window : nat) : string := "SMA_" +:+ pretty window.
Definition EMA_name (window : nat) : string := "EMA_" +:+ pretty window.

(** The raw signal of a run of [trend_following] over the prices [p]. *)
Definition raw_signal (window : nat) (p : Series) : list Z :=
  signals 0 p (rolling_mean window p) (ewm_mean window p).

(** The frame [trend_following] builds from a copy [f] of its input. *)
Definition tf_frame (f : Frame) (strategy_col : string) (window : nat)
    (p : Series) : Frame :=
  let pos := shift1 (of_Z <$> raw_signal window p) in
  set_column strategy_col (smul (pct_change p) pos)
    (set_column "position" pos
       (set_column (EMA_name window) (ewm_mean window p)
          (set_column (SMA_name window) (rolling_mean window p) f))).

(** ** The curves of [max_drawdown], without the interpreter state *)

(** [(1 + r).cumprod() - 1] *)
Definition cumulative_returns (r : Series) : Series :=
  (fun x => fsub x f1) <$> cumprod (fadd f1 <$> r).

(** [1 - (1 + c) / (1 + c.cummax())] *)
Definition drawdown_curve (c : Series) : Series :=
  fsub f1 <$> sdiv (fadd f1 <$> c) (fadd f1 <$> cummax c).

(** The frame [max_drawdown] leaves behind. *)
Definition md_frame (f : Frame) (strategy_col : string) (r : Series) : Frame :=
  set_column "drawdown" (drawdown_curve (cumulative_returns r))
    (set_column ("cumulative_return_" +:+ strategy_col) (cumulative_returns r) f).



(** ** The metrics of [return_metrics], without the interpreter state *)

Section MetricValues.
Variable fsqrt : float -> float.
Variable fpow : float -> float -> float.

(** [T / h] for daily data *)
Definition n_years_daily (T : nat) : float := fdiv (of_nat T) (of_Z 365).

(** The annualized return of [T] daily periods whose total cumulative
    return is [x]. *)
Definition cagr_daily (T : nat) (x : float) : float :=
  fsub (fpow (fdiv (fmul (of_Z 100) (fadd f1 x)) (of_Z 100))
             (fdiv f1 (n_years_daily T))) f1.

(** The annualized volatility [return_metrics] computes from the column [p]. *)
Definition vol_daily (p : Series) : float :=
  fmul (sstd fsqrt p) (fsqrt (of_Z 365)).

Definition sharpe_daily (T : nat) (x : float) (p : Series) : float :=
  fdiv (cagr_daily T x) (vol_daily p).

Definition max_dd_of (r : Series) : float :=
  smax (drawdown_curve (cumulative_returns r)).

(** The objective [grid_search] gives to a frame of [T] rows with return
    column [r] and price column [p]. *)
Definition objective_daily (T : nat) (r p : Series) : float :=
  fdiv (sharpe_daily T (default NaN (last (cumulative_returns r))) p) (max_dd_of r).
End MetricValues.

(** The strategy returns [trend_following] stores for the prices [p]. *)
Definition strategy_returns (window : nat) (p : Series) : Series :=
  smul (pct_change p) (shift1 (of_Z <$> raw_signal window p)).

Section SearchValues.
Variable fsqrt : float -> float.
Variable fpow : float -> float -> float.

(** The objective of one candidate window over [T] rows of prices [p]. *)
Definition window_objective (T : nat) (p : Series) (window : nat) : float :=
  objective_daily fsqrt fpow T (strategy_returns window p) p.

(** One turn of the loop of [grid_search] on the loop variables alone. *)
Definition search_step (objective : nat -> float) (st : search_state)
    (window_size : nat) : search_state :=
  let objective_value := objective window_size in
  let results' := results st ++ [(window_size, objective_value)] in
  if fgt objective_value (max_objective_value st)
  then mkSearch (Some window_size) objective_value results'
  else mkSearch (optimal_window st) (max_objective_value st) results'.
End SearchValues.

(** What [grid_search] asks of the column names and of the data. *)
Definition searchable (f : Frame) (pc sc : string) (p : Series)
    (window_range : list nat) : Prop :=
  columns f !! pc = Some p /\
  length p = index_len f /\
  p ≠ [] /\
  pc ≠ "position" /\
  pc ≠ sc /\
  pc ≠ "cumulative_" +:+ sc /\
  Forall (fun win => (1 <= win)%nat /\ pc ≠ SMA_name win /\ pc ≠ EMA_name win)
         window_range.

(** What the loop variables hold after the candidates [l], from the
    initial state: nothing selected while no objective exceeds -inf;
    otherwise the earliest candidate that no other one exceeds. *)
Definition selected (objective : nat -> float) (l : list nat)
    (st : search_state) : Prop :=
  results st = (fun win => (win, objective win)) <$> l /\
  match optimal_window st with
  | None =>
      max_objective_value st = NInf /\
      forall win, win ∈ l -> fgt (objective win) NInf = false
  | Some best =>
      max_objective_value st = objective best /\
      fgt (objective best) NInf = true /\
      exists i, l !! i = Some best /\
        (forall j win, l !! j = Some win -> fgt (objective win) (objective best) = false) /\
        (forall j win, (j < i)%nat -> l !! j = Some win ->
           fle (objective best) (objective win) = false)
  end.

(** What a run leaves of an interpreter result: its value. *)
Definition value_of {A} (r : result (A * World)) : result A :=
  match r with
  | Ok (a, _) => Ok a
  | Raise e => Raise e
  end.

(** The frame [return_metrics] leaves behind. *)
Definition rm_frame (f : Frame) (strategy_col : string) (r : Series) : Frame :=
  md_frame (set_column ("cumulative_" +:+ strategy_col) (cumulative_returns r) f)
           strategy_col r.

(** Sum, mean and sample variance of rationals, to state what [std] holds. *)
Definition Qc_sum (l : list Qc) : Qc := foldl Qcplus 0 l.

Definition Qc_of_nat (n : nat) : Qc := Q2Qc (inject_Z (Z.of_nat n)).

Definition Qc_mean (l : list Qc) : Qc := Qc_sum l / Qc_of_nat (length l).

Definition sample_variance (l : list Qc) : Qc :=
  Qc_sum ((fun x => (Qc_mean l - x) * (Qc_mean l - x)) <$> l)
  / Qc_of_nat (length l - 1).

(** A frame as pandas keeps it: every column has one value per row. *)
Definition well_formed (f : Frame) : Prop :=
  forall c s, columns f !! c = Some s -> length s = index_len f.

(** ** Sample inputs *)

(** A frame with the single column [close]. *)
Definition frame_of_prices (prices : list Z) : Frame :=
  mkFrame (length prices) {["close" := of_Z <$> prices]}.

(** A store whose only frame holds these prices; the global [position] is
    left at 1, as an earlier run might have. *)
Definition world_of_prices (prices : list Z) : World :=
  mkWorld 1 [frame_of_prices prices].

Definition rising_prices : list Z := [1; 2; 3; 4; 5]%Z.
Definition rising_rationals : list Qc :=
  (fun z => Q2Qc (inject_Z z)) <$> rising_prices.

(** A frame with a price column [close] and a return column [strat]. *)
Definition frame_of_returns (prices : list Z) (returns : list Qc) : Frame :=
  mkFrame (length prices)
    (<["strat" := Fin <$> returns]> {["close" := of_Z <$> prices]}).

Definition world_of_returns (prices : list Z) (returns : list Qc) : World :=
  mkWorld 0 [frame_of_returns prices returns].

(** Five days at the price 5 with a return column of 10% a day. *)
Definition flat_prices : list Z := [5; 5; 5; 5; 5]%Z.

(** Up 10%, down 20%, up 25%. *)
Definition up_down_up : list Qc := [Q2Qc (1 # 10); Q2Qc (-1 # 5); Q2Qc (1 # 4)].

(** * The downloader of [data_functions.py]

    The functions of this file talk to the network, the clock, the file
    system and the terminal.  Their state is a record of what the network
    will answer and of what the function has done so far.  An exception
    leaves that record as it is at the raise. *)

(** The exceptions of [requests], with their message.  The first three are
    subclasses of the last. *)
Inductive request_error : Type :=
| HTTPError (msg : string)
| ConnectionError (msg : string)
| Timeout (msg : string)
| RequestException (msg : string).

Inductive io_exn : Type :=
| PyError (e : exn)
| RequestError (e : request_error).

Inductive outcome (A : Type) : Type :=
| Returned (a : A)
| Raised (e : io_exn).
Arguments Returned {A} a.
Arguments Raised {A} e.

(** A request: the URL and the query parameters. *)
Abbreviation request := (string * list (string * string))%type.

(** What the function finds and leaves: [net i] is what the [i]-th request
    gets, [sent] the requests made, [slept] the arguments of [time.sleep],
    [files] the files written and [stdout] the lines printed.  [R] is the
    type of the answers, [F] the type of a file's contents. *)
Record Env (R F : Type) : Type := mkEnv {
  net : nat -> R;
  sent : list request;
  slept : list Z;
  files : gmap string F;
  stdout : list string
}.
Arguments mkEnv {R F} _ _ _ _ _.
Arguments net {R F} _ _.
Arguments sent {R F} _.
Arguments slept {R F} _.
Arguments files {R F} _.
Arguments stdout {R F} _.

Definition IO (R F A : Type) : Type := Env R F -> outcome A * Env R F.

#[global] Instance IO_ret {R F} : MRet (IO R F) := fun A a env => (Returned a, env).
#[global] Instance IO_bind {R F} : MBind (IO R F) :=
  fun A B k m env =>
    match m env with
    | (Returned a, env') => k a env'
    | (Raised e, env') => (Raised e, env')
    end.

Definition io_raise {R F A} (e : io_exn) : IO R F A := fun env => (Raised e, env).

(** [requests.get(url, params=params)] up to the decoded answer. *)
Definition http_get {R F} (url : string) (params : list (string * string)) : IO R F R :=
  fun env =>
    (Returned (net env (length (sent env))),
     mkEnv (net env) (sent env ++ [(url, params)]) (slept env) (files env) (stdout env)).

Definition print {R F} (line : string) : IO R F unit :=
  fun env =>
    (Returned tt,
     mkEnv (net env) (sent env) (slept env) (files env) (stdout env ++ [line])).

(** [time.sleep(d)], which refuses a negative length. *)
Definition sleep {R F} (d : Z) : IO R F unit :=
  fun env =>
    if decide (d < 0)%Z then (Raised (PyError ValueError), env)
    else (Returned tt,
          mkEnv (net env) (sent env) (slept env ++ [d]) (files env) (stdout env)).

Definition write_file {R F} (path : string) (content : F) : IO R F unit :=
  fun env =>
    (Returned tt,
     mkEnv (net env) (sent env) (slept env) (<[path := content]> (files env))
           (stdout env)).

(** ** [download_crypto_data] *)

(** An answer of the market-chart endpoint: a [requests] exception from
    [get], [raise_for_status] or [json], or a JSON object, of which the
    function reads the entry ["prices"], a list of pairs of a timestamp in
    milliseconds and a price; [None] when the object has no such entry. *)
Inductive chart_response : Type :=
| Refused (e : request_error)
| Chart (prices : option (list (Z * float))).

(** The frame the function returns and saves: the dates as index, one
    column of prices under the name of the currency. *)
Record PriceFrame : Type := mkPriceFrame {
  column_name : string;
  price_rows : list (string * float)
}.

(** [df.drop_duplicates(subset=['Timestamp'], keep='last')]: a row stays
    when no later row has its date. *)
Fixpoint drop_duplicates_last (rows : list (string * float)) : list (string * float) :=
  match rows with
  | [] => []
  | row :: rest =>
      if decide (row.1 ∈ rest.*1) then drop_duplicates_last rest
      else row :: drop_duplicates_last rest
  end.

Definition error_line (e : request_error) : string :=
  match e with
  | HTTPError msg => "HTTP error occurred: " +:+ msg
  | ConnectionError msg => "Connection error occurred: " +:+ msg
  | Timeout msg => "Timeout error occurred: " +:+ msg
  | RequestException msg => "An unexpected error occurred: " +:+ msg
  end.

Definition chart_url (crypto_id : string) : string :=
  "https://api.coingecko.com/api/v3/coins/" +:+ crypto_id +:+ "/market_chart".

Section Download.
(** [pd.to_datetime(ms, unit='ms')] followed by [strftime('%Y-%m-%d')]. *)
Variable date_of_ms : Z -> string.

(** Lines 34 to 41: the frame built from the ["prices"] entry. *)
Definition frame_of_chart (crypto_id : string) (prices : list (Z * float)) : PriceFrame :=
  mkPriceFrame crypto_id
    (drop_duplicates_last ((fun row => (date_of_ms row.1, row.2)) <$> prices)).

(** The body of the [for] loop up to the [except] clauses: [Some df] when
    the function returns [df], [None] when an exception was caught. *)
Definition download_attempt (crypto_id vs_currency days interval : string)
    : IO chart_response PriceFrame (option PriceFrame) :=
  response ← http_get (chart_url crypto_id)
               [("vs_currency", vs_currency); ("days", days); ("interval", interval)];
  match response with
  | Refused e => print (error_line e);; mret None
  | Chart None => io_raise (PyError KeyError)
  | Chart (Some prices) =>
      (* with two columns called Timestamp, to_datetime refuses the frame *)
      if decide (crypto_id = "Timestamp") then io_raise (PyError ValueError)
      else
        let df := frame_of_chart crypto_id prices in
        write_file (crypto_id +:+ ".csv") df;;
        print ("Data successfully saved to " +:+ crypto_id +:+ ".csv");;
        mret (Some df)
  end.

(** [for _ in range(n)] and what follows the loop. *)
Fixpoint download_loop (crypto_id vs_currency days interval : string) (delay : Z)
    (n : nat) : IO chart_response PriceFrame (option PriceFrame) :=
  match n with
  | O => print "Failed to download data after several retries.";; mret None
  | S n' =>
      r ← download_attempt crypto_id vs_currency days interval;
      match r with
      | Some df => mret (Some df)
      | None =>
          print ("Retrying in " +:+ pretty delay +:+ " seconds...");;
          sleep delay;;
          download_loop crypto_id vs_currency days interval delay n'
      end
  end.

Definition download_crypto_data (crypto_id vs_currency days interval : string)
    (retries delay : Z) : IO chart_response PriceFrame (option PriceFrame) :=
  download_loop crypto_id vs_currency days interval delay (Z.to_nat retries).
End Download.

(** ** [fetch_top_cryptos_by_market_cap] *)

Section Markets.
(** The type of a JSON value in a record of the markets endpoint. *)
Variable V : Type.

(** An answer of the markets endpoint: an exception of [requests.get], or
    the decoded JSON, a list of records. *)
Inductive markets_response : Type :=
| Unreachable (e : request_error)
| Markets (records : list (gmap string V)).

Definition market_columns : list string :=
  ["id"; "symbol"; "name"; "current_price"; "market_cap";
   "price_change_percentage_24h_in_currency"].

(** [pd.DataFrame(data)] of a list of records has the keys of all records
    as columns; a record without a key has a missing value there.
    Selecting a column that no record has raises KeyError.  A row of the
    result holds the six selected cells, [None] for a missing one. *)
Definition has_column (records : list (gmap string V)) (c : string) : bool :=
  bool_decide (Exists (fun r => is_Some (r !! c)) records).

Definition select_columns (records : list (gmap string V)) : list (list (option V)) :=
  (fun r => (fun c => r !! c) <$> market_columns) <$> records.

Definition fetch_top_cryptos_by_market_cap (vs_currency : string) (limit : Z)
    : IO markets_response unit (list (list (option V))) :=
  response ← http_get "https://api.coingecko.com/api/v3/coins/markets"
               [("vs_currency", vs_currency); ("order_by", "market_cap");
                ("per_page", pretty limit); ("page", "1"); ("sparkline", "False");
                ("price_change_percentage", "24h")];
  match response with
  | Unreachable e => io_raise (RequestError e)
  | Markets records =>
      if forallb (has_column records) market_columns
      then mret (select_columns records)
      else io_raise (PyError KeyError)
  end.
End Markets.

(** ** A calendar for [date_of_ms]

    The proleptic Gregorian date of a number of milliseconds since
    1970-01-01 UTC, to run the downloader on concrete answers. *)

Definition civil_of_days (days : Z) : Z * Z * Z :=
  let z := (days + 719468)%Z in
  let era := (z / 146097)%Z in
  let doe := (z - era * 146097)%Z in
  let yoe := ((doe - doe / 1460 + doe / 36524 - doe / 146096) / 365)%Z in
  let doy := (doe - (365 * yoe + yoe / 4 - yoe / 100))%Z in
  let mp := ((5 * doy + 2) / 153)%Z in
  let d := (doy - (153 * mp + 2) / 5 + 1)%Z in
  let m := (if (mp <? 10)%Z then mp + 3 else mp - 9)%Z in
  let y := (yoe + era * 400 + (if (m <=? 2)%Z then 1 else 0))%Z in
  (y, m, d).

Definition two_digits (n : Z) : string :=
  if (n <? 10)%Z then "0" +:+ pretty n else pretty n.

Definition four_digits (n : Z) : string :=
  if (n <? 10)%Z then "000" +:+ pretty n
  else if (n <? 100)%Z then "00" +:+ pretty n
  else if (n <? 1000)%Z then "0" +:+ pretty n
  else pretty n.

Definition calendar_date (ms : Z) : string :=
  let '(y, m, d) := civil_of_days (ms / 86400000) in
  four_digits y +:+ "-" +:+ two_digits m +:+ "-" +:+ two_digits d.

(** Three failed requests, then an answer with two prices on 2023-11-14
    and one on the next day. *)
Definition flaky_net (i : nat) : chart_response :=
  match i with
  | 0%nat => Refused (Timeout "timed out")
  | 1%nat => Refused (HTTPError "429 Too Many Requests")
  | 2%nat => Refused (ConnectionError "connection reset")
  | _ => Chart (Some [(1699920000000, of_Z 36500); (1700000000000, of_Z 36600);
                      (1700006400000, of_Z 36700)]%Z)
  end.

Definition fresh_env {R F} (network : nat -> R) : Env R F :=
  mkEnv network [] [] ∅ [].

(** What [k] caught exceptions leave behind: the requests, the sleeps and
    the two lines printed for each. *)
Definition retry_line (delay : Z) : string :=
  "Retrying in " +:+ pretty delay +:+ " seconds...".

Definition after_failures {R F} (env : Env R F) (req : request) (delay : Z)
    (es : list request_error) : Env R F :=
  mkEnv (net env)
        (sent env ++ replicate (length es) req)
        (slept env ++ replicate (length es) delay)
        (files env)
        (stdout env ++ (es ≫= fun e => [error_line e; retry_line delay])).

Definition chart_request (crypto_id vs_currency days interval : string) : request :=
  (chart_url crypto_id,
   [("vs_currency", vs_currency); ("days", days); ("interval", interval)]).

Definition markets_request (vs_currency : string) (limit : Z) : request :=
  ("https://api.coingecko.com/api/v3/coins/markets",
   [("vs_currency", vs_currency); ("order_by", "market_cap");
    ("per_page", pretty limit); ("page", "1"); ("sparkline", "False");
    ("price_change_percentage", "24h")]).

(** Two records of the markets endpoint, the second without a price. *)
Definition two_markets : list (gmap string string) :=
  [ {[ "id" := "bitcoin"; "symbol" := "btc"; "name" := "Bitcoin";
       "current_price" := "36500"; "market_cap" := "713000000000";
       "price_change_percentage_24h_in_currency" := "1.5"; "image" := "btc.png" ]};
    {[ "id" := "ethereum"; "symbol" := "eth"; "name" := "Ethereum";
       "market_cap" := "247000000000" ]} ].

(** * Properties *)

(** ** Running the interpreter *)

Lemma run_bind {A B} (m : M A) (k : A -> M B) w a w' :
  m w = Ok (a, w') -> (m ≫= k) w = k a w'.
Proof. intros H. unfold mbind, M_bind, bind. by rewrite H. Qed.

Lemma run_bind_raise {A B} (m : M A) (k : A -> M B) w e :
  m w = Raise e -> (m ≫= k) w = Raise e.
Proof. intros H. unfold mbind, M_bind, bind. by rewrite H. Qed.

Lemma run_getcol df c w f s :
  frames w !! df = Some f -> columns f !! c = Some s ->
  getcol df c w = Ok (s, w).
Proof.
  intros Hf Hc. unfold getcol.
  erewrite run_bind; [| unfold get_frame; by rewrite Hf].
  by rewrite Hc.
Qed.

Lemma run_getcol_missing df c w f :
  frames w !! df = Some f -> columns f !! c = None ->
  getcol df c w = Raise KeyError.
Proof.
  intros Hf Hc. unfold getcol.
  erewrite run_bind; [| unfold get_frame; by rewrite Hf].
  by rewrite Hc.
Qed.

Lemma run_setcol df c s w f :
  frames w !! df = Some f ->
  setcol df c s w = Ok (tt, mkWorld (position w) (<[df := set_column c s f]> (frames w))).
Proof. intros Hf. unfold setcol. by rewrite Hf. Qed.

Lemma lookup_top (h : list Frame) f : (h ++ [f]) !! length h = Some f.
Proof. by rewrite lookup_app_r, Nat.sub_diag. Qed.

Lemma insert_top (h : list Frame) f g : <[length h := g]> (h ++ [f]) = h ++ [g].
Proof. by rewrite insert_app_r_alt, Nat.sub_diag. Qed.

Lemma run_getcol_top h pos f c s :
  columns f !! c = Some s ->
  getcol (length h) c (mkWorld pos (h ++ [f])) = Ok (s, mkWorld pos (h ++ [f])).
Proof. intros. eapply run_getcol; [apply lookup_top | done]. Qed.

Lemma run_setcol_top h pos f c s :
  setcol (length h) c s (mkWorld pos (h ++ [f]))
  = Ok (tt, mkWorld pos (h ++ [set_column c s f])).
Proof. erewrite run_setcol; [| apply lookup_top]. simpl. by rewrite insert_top. Qed.

Lemma lookup_set_column c s f : columns (set_column c s f) !! c = Some s.
Proof. apply lookup_insert_eq. Qed.

Lemma lookup_set_column_ne c c' s f :
  c ≠ c' -> columns (set_column c s f) !! c' = columns f !! c'.
Proof. intros. by apply lookup_insert_ne. Qed.

(** ** One call and one pass of [update_position] *)

Lemma run_update_position row pc sc ec close sma ema w :
  row !! pc = Some close -> row !! sc = Some sma -> row !! ec = Some ema ->
  update_position row pc sc ec w
  = Ok (next_position (position w) close sma ema,
        mkWorld (next_position (position w) close sma ema) (frames w)).
Proof.
  intros Hc Hs He. destruct w as [pos h].
  unfold update_position, getitem. rewrite Hc, Hs, He.
  unfold next_position, mbind, M_bind, bind, ret, get_position. cbn.
  destruct (pos =? 0)%Z eqn:E0.
  - apply Z.eqb_eq in E0 as ->.
    by destruct (fgt close sma && fgt close ema).
  - destruct (pos =? 1)%Z eqn:E1.
    + apply Z.eqb_eq in E1 as ->.
      by destruct (fle close sma || fle close ema).
    + done.
Qed.

Lemma row_of_lookup f i c :
  row_of f i !! c = columns f !! c ≫= (fun s : Series => s !! i).
Proof. unfold row_of. apply lookup_omap. Qed.

Lemma final_position_cons pos z sig :
  final_position pos (z :: sig) = final_position z sig.
Proof.
  unfold final_position. rewrite last_cons. by destruct (last sig).
Qed.

Lemma signals_length_min pos c s e :
  length (signals pos c s e) = (length c `min` (length s `min` length e))%nat.
Proof.
  revert pos s e. induction c as [|x c IH]; intros pos [|y s] [|z e];
    cbn; try lia. rewrite IH. lia.
Qed.

Lemma signals_length pos c s e :
  length s = length c -> length e = length c ->
  length (signals pos c s e) = length c.
Proof. intros Hs He. rewrite signals_length_min. lia. Qed.

Lemma run_rows_update_position f pc sc ec p s e h :
  columns f !! pc = Some p -> columns f !! sc = Some s -> columns f !! ec = Some e ->
  length s = length p -> length e = length p ->
  forall m k pos, (k + m = length p)%nat ->
    mapM (fun i => update_position (row_of f i) pc sc ec) (seq k m) (mkWorld pos h)
    = Ok (signals pos (drop k p) (drop k s) (drop k e),
          mkWorld (final_position pos (signals pos (drop k p) (drop k s) (drop k e))) h).
Proof.
  intros Hp Hs He Ls Le. induction m as [|m IH]; intros k pos Hk.
  - rewrite !drop_ge by lia. done.
  - destruct (lookup_lt_is_Some_2 p k) as [x Hx]; [lia|].
    destruct (lookup_lt_is_Some_2 s k) as [y Hy]; [lia|].
    destruct (lookup_lt_is_Some_2 e k) as [z Hz]; [lia|].
    rewrite (drop_S _ _ _ Hx), (drop_S _ _ _ Hy), (drop_S _ _ _ Hz).
    cbn [seq mapM signals].
    erewrite run_bind; cycle 1.
    { apply (run_update_position _ _ _ _ x y z);
        rewrite row_of_lookup; [rewrite Hp | rewrite Hs | rewrite He]; done. }
    cbn [position frames].
    erewrite run_bind; [| apply IH; lia].
    by rewrite final_position_cons.
Qed.

Lemma run_apply_update_position h pos f pc sc ec p s e :
  columns f !! pc = Some p -> columns f !! sc = Some s -> columns f !! ec = Some e ->
  length p = index_len f -> length s = length p -> length e = length p ->
  apply_rows (length h) (fun row => update_position row pc sc ec) (mkWorld pos (h ++ [f]))
  = Ok (signals pos p s e, mkWorld (final_position pos (signals pos p s e)) (h ++ [f])).
Proof.
  intros Hp Hs He Lp Ls Le. unfold apply_rows.
  erewrite run_bind; [| unfold get_frame; cbn; by rewrite lookup_top].
  rewrite <- Lp.
  by rewrite (run_rows_update_position f pc sc ec p s e _ Hp Hs He Ls Le (length p) 0 pos).
Qed.

(** ** Lengths of the derived Series *)

Lemma rolling_mean_length w s : length (rolling_mean w s) = length s.
Proof. unfold rolling_mean. apply length_imap. Qed.

Lemma ewm_from_length d num den s : length (ewm_from d num den s) = length s.
Proof. revert num den. induction s; intros; simpl; [done|]. by rewrite IHs. Qed.

Lemma ewm_mean_length w s : length (ewm_mean w s) = length s.
Proof. apply ewm_from_length. Qed.

Lemma shift1_length s : length (shift1 s) = length s.
Proof. unfold shift1. rewrite length_take. simpl. lia. Qed.

Lemma pct_change_length s : length (pct_change s) = length s.
Proof. unfold pct_change. rewrite length_zip_with, shift1_length. lia. Qed.

Lemma raw_signal_length w p : length (raw_signal w p) = length p.
Proof.
  unfold raw_signal. apply signals_length;
    [apply rolling_mean_length | apply ewm_mean_length].
Qed.

Lemma SMA_EMA_ne w : SMA_name w ≠ EMA_name w.
Proof. unfold SMA_name, EMA_name. discriminate. Qed.

Lemma SMA_position_ne w : SMA_name w ≠ "position".
Proof. unfold SMA_name. discriminate. Qed.

Lemma EMA_position_ne w : EMA_name w ≠ "position".
Proof. unfold EMA_name. discriminate. Qed.

(** ** [trend_following] as a whole *)

Lemma run_trend_following w d f p pc sc win :
  frames w !! d = Some f ->
  columns f !! pc = Some p ->
  length p = index_len f ->
  (1 <= win)%nat ->
  pc ≠ SMA_name win -> pc ≠ EMA_name win -> pc ≠ "position" ->
  trend_following d pc sc win w
  = Ok (length (frames w),
        mkWorld (final_position 0 (raw_signal win p))
                (frames w ++ [tf_frame f sc win p])).
Proof.
  intros Hf Hp Lp Hw N1 N2 N3. destruct w as [pos0 h]. cbn [frames] in *.
  unfold trend_following.
  erewrite run_bind; [| reflexivity]. cbn [frames].
  erewrite run_bind; [| unfold copy; cbn; by rewrite Hf]. cbn [position frames].
  erewrite run_bind; [| by apply run_getcol_top].
  erewrite run_bind; [| apply run_setcol_top].
  fold (SMA_name win). fold (EMA_name win).
  set (f1' := set_column (SMA_name win) _ f).
  assert (columns f1' !! pc = Some p) as Hp1.
  { unfold f1'. by rewrite lookup_set_column_ne. }
  erewrite run_bind; [| by apply run_getcol_top].
  erewrite run_bind; [| unfold ewm_span_mean; rewrite decide_False by lia; reflexivity].
  erewrite run_bind; [| apply run_setcol_top].
  set (f2 := set_column (EMA_name win) _ f1').
  assert (columns f2 !! pc = Some p) as Hp2.
  { unfold f2. by rewrite lookup_set_column_ne. }
  erewrite run_bind; cycle 1.
  { apply (run_apply_update_position h 0 f2 pc _ _ p (rolling_mean win p) (ewm_mean win p)).
    - done.
    - unfold f2. rewrite lookup_set_column_ne by (symmetry; apply SMA_EMA_ne).
      apply lookup_set_column.
    - apply lookup_set_column.
    - done.
    - apply rolling_mean_length.
    - apply ewm_mean_length. }
  fold (raw_signal win p).
  erewrite run_bind; [| apply run_setcol_top].
  set (f3 := set_column "position" _ f2).
  erewrite run_bind; cycle 1.
  { apply run_getcol_top. unfold f3. by rewrite lookup_set_column_ne. }
  erewrite run_bind; [| apply run_getcol_top; apply lookup_set_column].
  erewrite run_bind; [| apply run_setcol_top].
  reflexivity.
Qed.

(** ** The raw signal *)

Lemma next_position_01 pos close sma ema :
  (pos = 0 \/ pos = 1)%Z ->
  (next_position pos close sma ema = 0 \/ next_position pos close sma ema = 1)%Z.
Proof.
  intros [-> | ->]; unfold next_position; cbn.
  - destruct (fgt close sma && fgt close ema); auto.
  - destruct (fle close sma || fle close ema); auto.
Qed.

Lemma signals_01 pos c s e t z :
  (pos = 0 \/ pos = 1)%Z -> signals pos c s e !! t = Some z -> (z = 0 \/ z = 1)%Z.
Proof.
  revert pos s e t. induction c as [|x c IH]; intros pos [|y s] [|u e] t Hpos Ht;
    try done.
  cbn in Ht. destruct t as [|t]; cbn in Ht.
  - injection Ht as <-. by apply next_position_01.
  - eapply IH; [| exact Ht]. by apply next_position_01.
Qed.

Lemma signals_lookup pos c s e t x y u :
  c !! t = Some x -> s !! t = Some y -> e !! t = Some u ->
  signals pos c s e !! t
  = Some (next_position (position_before pos (signals pos c s e) t) x y u).
Proof.
  revert pos s e t. induction c as [|x0 c IH]; intros pos [|y0 s] [|u0 e] t Hx Hy Hu;
    try done.
  destruct t as [|t]; cbn in *.
  - by simplify_eq.
  - rewrite (IH _ _ _ _ Hx Hy Hu). f_equal. f_equal.
    destruct t as [|t]; cbn; [done|].
    destruct (signals _ c s e !! t) eqn:E; [done|].
    apply lookup_ge_None in E. apply lookup_lt_Some in Hx, Hy, Hu.
    rewrite signals_length_min in E. lia.
Qed.

Lemma shift1_lookup_0 s : (0 < length s)%nat -> shift1 s !! 0%nat = Some NaN.
Proof. intros H. unfold shift1. by rewrite lookup_take_lt. Qed.

Lemma shift1_lookup_S s t : (S t < length s)%nat -> shift1 s !! S t = s !! t.
Proof. intros H. unfold shift1. by rewrite lookup_take_lt. Qed.

Lemma smul_lookup a b t x y :
  a !! t = Some x -> b !! t = Some y -> smul a b !! t = Some (fmul x y).
Proof. intros Ha Hb. unfold smul. rewrite lookup_zip_with, Ha. cbn. by rewrite Hb. Qed.

Lemma pct_change_lookup_S p t x y :
  p !! S t = Some x -> p !! t = Some y ->
  pct_change p !! S t = Some (fsub (fdiv x y) f1).
Proof.
  intros Hx Hy. unfold pct_change. rewrite lookup_zip_with, Hx. cbn.
  rewrite shift1_lookup_S by (by eapply lookup_lt_Some). by rewrite Hy.
Qed.

Lemma pct_change_lookup_0 p : (0 < length p)%nat -> pct_change p !! 0%nat = Some NaN.
Proof.
  intros H. unfold pct_change. rewrite lookup_zip_with.
  destruct (lookup_lt_is_Some_2 p 0 H) as [x ->]. cbn.
  rewrite shift1_lookup_0 by done. cbn. by destruct x.
Qed.

(** ** C1: the one-period lag *)



(** ** C2: the position state machine *)

Lemma position_before_01 pos c s e t :
  (pos = 0 \/ pos = 1)%Z ->
  (position_before pos (signals pos c s e) t = 0
   \/ position_before pos (signals pos c s e) t = 1)%Z.
Proof.
  intros Hpos. destruct t as [|t]; cbn; [done|].
  destruct (signals pos c s e !! t) as [z|] eqn:E; cbn; [|done].
  by eapply signals_01.
Qed.

Lemma flt_nan_r x : flt x NaN = false.
Proof. by destruct x. Qed.

Lemma flt_nan_l x : flt NaN x = false.
Proof. by destruct x. Qed.

Lemma rolling_mean_lookup_is_Some w p t x :
  p !! t = Some x -> is_Some (rolling_mean w p !! t).
Proof.
  intros H. apply lookup_lt_is_Some. rewrite rolling_mean_length.
  by eapply lookup_lt_Some.
Qed.

Lemma ewm_mean_lookup_is_Some w p t x :
  p !! t = Some x -> is_Some (ewm_mean w p !! t).
Proof.
  intros H. apply lookup_lt_is_Some. rewrite ewm_mean_length.
  by eapply lookup_lt_Some.
Qed.

(** C2.  A run of [trend_following] starts the machine in Flat (0).  Each
    call of [update_position] returns and stores the next state.  At row
    [t] the machine goes from Flat to Long exactly when
    [close > SMA and close > EMA], from Long to Flat exactly when
    [close <= SMA or close <= EMA], and keeps its state otherwise; with an
    undefined (NaN) SMA or EMA a flat machine stays flat. *)
Theorem position_state_machine w d f p pc sc win :
  frames w !! d = Some f ->
  columns f !! pc = Some p ->
  length p = index_len f ->
  (1 <= win)%nat ->
  pc ≠ SMA_name win -> pc ≠ EMA_name win -> pc ≠ "position" ->
  let sig := raw_signal win p in
  (forall row c1 c2 c3 close sma ema v,
     row !! c1 = Some close -> row !! c2 = Some sma -> row !! c3 = Some ema ->
     update_position row c1 c2 c3 v
     = Ok (next_position (position v) close sma ema,
           mkWorld (next_position (position v) close sma ema) (frames v))) /\
  (exists w' f',
     trend_following d pc sc win w = Ok (length (frames w), w') /\
     position w' = final_position 0 sig /\
     frames w' !! length (frames w) = Some f' /\
     (sc ≠ "position" ->
      columns f' !! "position" = Some (shift1 (of_Z <$> sig)))) /\
  length sig = length p /\
  position_before 0 sig 0 = 0%Z /\
  (forall t close, p !! t = Some close ->
     exists sma ema z,
       rolling_mean win p !! t = Some sma /\
       ewm_mean win p !! t = Some ema /\
       sig !! t = Some z /\
       z = next_position (position_before 0 sig t) close sma ema /\
       position_before 0 sig (S t) = z /\
       (position_before 0 sig t = 0%Z ->
          (z = 1%Z <-> fgt close sma = true /\ fgt close ema = true) /\
          (z = 0%Z <-> ~ (fgt close sma = true /\ fgt close ema = true)) /\
          (sma = NaN \/ ema = NaN -> z = 0%Z)) /\
       (position_before 0 sig t = 1%Z ->
          (z = 0%Z <-> fle close sma = true \/ fle close ema = true) /\
          (z = 1%Z <-> ~ (fle close sma = true \/ fle close ema = true))) /\
       (position_before 0 sig t = 0 \/ position_before 0 sig t = 1)%Z).
Proof.
  intros Hf Hp Lp Hw N1 N2 N3 sig.
  split; [intros; by apply run_update_position|].
  split.
  { eexists _, _. split; [by apply run_trend_following|].
    split; [done|]. split; [apply lookup_top|].
    intros Hsc. unfold tf_frame. rewrite lookup_set_column_ne by done.
    apply lookup_set_column. }
  split; [apply raw_signal_length|].
  split; [done|].
  intros t close Ht.
  destruct (rolling_mean_lookup_is_Some win p t close Ht) as [sma Hs].
  destruct (ewm_mean_lookup_is_Some win p t close Ht) as [ema He].
  pose proof (signals_lookup 0 _ _ _ t _ _ _ Ht Hs He) as Hz.
  fold (raw_signal win p) in Hz. fold sig in Hz.
  exists sma, ema, (next_position (position_before 0 sig t) close sma ema).
  split; [done|]. split; [done|]. split; [done|]. split; [done|].
  split; [cbn; by rewrite Hz|].
  split; [|split].
  - intros ->. unfold next_position. cbn.
    assert (sma = NaN \/ ema = NaN ->
            fgt close sma && fgt close ema = false) as Hnan.
    { intros [-> | ->]; unfold fgt; rewrite flt_nan_l; [done|].
      apply andb_false_r. }
    destruct (fgt close sma) eqn:E1, (fgt close ema) eqn:E2; cbn in *;
      (split; [|split]); try (intros H; by specialize (Hnan H));
      intuition (try done; try lia).
  - intros ->. unfold next_position. cbn.
    destruct (fle close sma) eqn:E1, (fle close ema) eqn:E2; cbn;
      split; intuition (try done; try lia).
  - apply position_before_01. by left.
Qed.

Lemma position_state_machine_witness :
  let w := world_of_prices rising_prices in
  let p := of_Z <$> rising_prices in
  let sig := raw_signal 2 p in
  (forall row c1 c2 c3 close sma ema v,
     row !! c1 = Some close -> row !! c2 = Some sma -> row !! c3 = Some ema ->
     update_position row c1 c2 c3 v
     = Ok (next_position (position v) close sma ema,
           mkWorld (next_position (position v) close sma ema) (frames v))) /\
  (exists w' f',
     trend_following 0 "close" "strat" 2 w = Ok (length (frames w), w') /\
     position w' = final_position 0 sig /\
     frames w' !! length (frames w) = Some f' /\
     ("strat" ≠ "position" ->
      columns f' !! "position" = Some (shift1 (of_Z <$> sig)))) /\
  length sig = length p /\
  position_before 0 sig 0 = 0%Z /\
  (forall t close, p !! t = Some close ->
     exists sma ema z,
       rolling_mean 2 p !! t = Some sma /\
       ewm_mean 2 p !! t = Some ema /\
       sig !! t = Some z /\
       z = next_position (position_before 0 sig t) close sma ema /\
       position_before 0 sig (S t) = z /\
       (position_before 0 sig t = 0%Z ->
          (z = 1%Z <-> fgt close sma = true /\ fgt close ema = true) /\
          (z = 0%Z <-> ~ (fgt close sma = true /\ fgt close ema = true)) /\
          (sma = NaN \/ ema = NaN -> z = 0%Z)) /\
       (position_before 0 sig t = 1%Z ->
          (z = 0%Z <-> fle close sma = true \/ fle close ema = true) /\
          (z = 1%Z <-> ~ (fle close sma = true \/ fle close ema = true))) /\
       (position_before 0 sig t = 0 \/ position_before 0 sig t = 1)%Z).
Proof.
  apply (position_state_machine (world_of_prices rising_prices) 0
           (frame_of_prices rising_prices) (of_Z <$> rising_prices) "close" "strat" 2).
  - reflexivity.
  - reflexivity.
  - reflexivity.
  - lia.
  - discriminate.
  - discriminate.
  - discriminate.
Defined.

(** ** Rational arithmetic *)

Lemma Qc_eq_Qeq (x y : Qc) : x = y <-> (this x == this y)%Q.
Proof. split; [intros ->; reflexivity | apply Qc_is_canon]. Qed.

(** Goals over [Qc] are sent to [Q], where [lra] and [nra] work. *)
Ltac qc_to_q :=
  repeat match goal with
  | H : @eq Qc _ _ |- _ => apply Qc_eq_Qeq in H
  | H : not (@eq Qc _ _) |- _ => rewrite Qc_eq_Qeq in H
  | |- @eq Qc _ _ => apply Qc_eq_Qeq
  | |- not (@eq Qc _ _) => rewrite Qc_eq_Qeq
  end;
  unfold Qcle, Qclt, Qcdiv, Qcminus, Qcinv, Qcopp, Qcmult, Qcplus, Q2Qc in *;
  cbn [this] in *;
  repeat (rewrite !Qred_correct in * ).


Lemma Qc_div_mul (a b : Qc) : b ≠ 0 -> a / b * b = a.
Proof. intros Hb. field. exact Hb. Qed.










(** ** Running values *)








Lemma dropna_Fin l : dropna (Fin <$> l) = Fin <$> l.
Proof.
  unfold dropna. induction l as [|x l IH]; [done|].
  rewrite fmap_cons, filter_cons_True by done. by rewrite IH.
Qed.


Lemma cumprod_from_length a s : length (cumprod_from a s) = length s.
Proof.
  revert a. induction s as [|x s IH]; intros a; cbn; [done|].
  destruct (is_nan x); cbn; by rewrite IH.
Qed.

Lemma cumulative_returns_length r : length (cumulative_returns r) = length r.
Proof.
  unfold cumulative_returns, cumprod.
  by rewrite length_fmap, cumprod_from_length, length_fmap.
Qed.







(** ** [max_drawdown] as a whole *)


Lemma run_max_drawdown w df f sc r :
  frames w !! df = Some f ->
  columns f !! sc = Some r ->
  max_drawdown df sc w
  = Ok (smax (drawdown_curve (cumulative_returns r)),
        mkWorld (position w) (<[df := md_frame f sc r]> (frames w))).
Proof.
  intros Hf Hr. destruct w as [pos h]. cbn [frames position] in *.
  pose proof (lookup_lt_Some _ _ _ Hf) as Hlt.
  unfold max_drawdown.
  erewrite run_bind; [| by eapply run_getcol].
  erewrite run_bind; [| by eapply run_setcol]. cbn [frames position].
  fold (cumulative_returns r).
  set (f1' := set_column _ (cumulative_returns r) f).
  assert (forall g, (<[df := g]> h) !! df = Some g) as Hin
    by (intros; by apply list_lookup_insert_eq).
  erewrite run_bind; [| eapply run_getcol; [apply Hin | apply lookup_set_column]].
  erewrite run_bind; [| eapply run_getcol; [apply Hin | apply lookup_set_column]].
  erewrite run_bind; [| eapply run_setcol; apply Hin]. cbn [frames position].
  rewrite list_insert_insert_eq.
  fold (drawdown_curve (cumulative_returns r)).
  erewrite run_bind; [| eapply run_getcol; [apply Hin | apply lookup_set_column]].
  reflexivity.
Qed.



(** ** C4: the drawdown curve *)



(** ** [return_metrics] as a whole *)

Lemma string_length_app (s1 s2 : string) :
  String.length (s1 +:+ s2) = (String.length s1 + String.length s2)%nat.
Proof. induction s1 as [|a s1 IH]; simpl; [done|]. by f_equal. Qed.

Lemma cumulative_ne sc : "cumulative_" +:+ sc ≠ sc.
Proof.
  intros E. apply (f_equal String.length) in E.
  rewrite string_length_app in E. cbn in E. lia.
Qed.

Lemma Qc_of_nat_ne_0 n : n ≠ 0%nat -> Qc_of_nat n ≠ 0.
Proof.
  intros Hn E. unfold Qc_of_nat in E. qc_to_q.
  unfold Qeq in E. cbn in E. lia.
Qed.

Lemma fdiv_Fin a b : b ≠ 0 -> fdiv (Fin a) (Fin b) = Fin (a / b).
Proof. intros Hb. cbn. by rewrite decide_False. Qed.

Lemma Qc_div_ne_0 (a b : Qc) : a ≠ 0 -> b ≠ 0 -> a / b ≠ 0.
Proof.
  intros Ha Hb E. apply Ha. rewrite <- (Qc_div_mul a b Hb), E. ring.
Qed.

Lemma year_ne_0 : Q2Qc (inject_Z 365) ≠ 0.
Proof. discriminate. Qed.

Lemma Fin_inj a b : Fin a = Fin b -> a = b.
Proof. intros H. by injection H. Qed.

Lemma n_years_daily_Fin T :
  n_years_daily T = Fin (Qc_of_nat T / Q2Qc (inject_Z 365)).
Proof. unfold n_years_daily, of_nat, of_Z. apply fdiv_Fin, year_ne_0. Qed.

Lemma n_years_daily_ne_0 T : T ≠ 0%nat -> n_years_daily T ≠ f0.
Proof.
  intros HT. rewrite n_years_daily_Fin. intros E. apply Fin_inj in E. revert E.
  apply Qc_div_ne_0; [by apply Qc_of_nat_ne_0 | apply year_ne_0].
Qed.

Section RunMetrics.
Variable fsqrt : float -> float.
Variable fpow : float -> float -> float.

Lemma run_return_metrics w df f pc sc r p x :
  frames w !! df = Some f ->
  columns f !! sc = Some r ->
  columns f !! pc = Some p ->
  pc ≠ "cumulative_" +:+ sc ->
  index_len f ≠ 0%nat ->
  last (cumulative_returns r) = Some x ->
  return_metrics fsqrt fpow df pc sc "daily" w
  = Ok ((x, cagr_daily fpow (index_len f) x, vol_daily fsqrt p,
         sharpe_daily fsqrt fpow (index_len f) x p, max_dd_of r),
        mkWorld (position w) (<[df := rm_frame f sc r]> (frames w))).
Proof.
  intros Hf Hr Hp Npc HT Hx. destruct w as [pos h]. cbn [frames position] in *.
  pose proof (lookup_lt_Some _ _ _ Hf) as Hlt.
  assert (forall g, (<[df := g]> h) !! df = Some g) as Hin
    by (intros; by apply list_lookup_insert_eq).
  unfold return_metrics.
  erewrite run_bind; [| by eapply run_getcol].
  erewrite run_bind; [| by eapply run_setcol]. cbn [frames position].
  fold (cumulative_returns r).
  set (f1' := set_column _ (cumulative_returns r) f).
  erewrite run_bind; cycle 1.
  { unfold len. erewrite run_bind; [| unfold get_frame; cbn; by rewrite Hin].
    reflexivity. }
  cbn [index_len f1' set_column].
  erewrite run_bind; [| reflexivity].
  erewrite run_bind; cycle 1.
  { unfold pydiv. rewrite decide_False by discriminate. reflexivity. }
  fold (n_years_daily (index_len f)).
  erewrite run_bind; [| eapply run_getcol; [apply Hin | apply lookup_set_column]].
  erewrite run_bind; [| unfold iloc_last; rewrite Hx; reflexivity].
  erewrite run_bind; [| eapply run_getcol; [apply Hin | apply lookup_set_column]].
  erewrite run_bind; [| unfold iloc_last; rewrite Hx; reflexivity].
  erewrite run_bind; cycle 1.
  { unfold pydiv. rewrite decide_False by (by apply n_years_daily_ne_0). reflexivity. }
  erewrite run_bind; cycle 1.
  { eapply run_getcol; [apply Hin|]. unfold f1'.
    rewrite lookup_set_column_ne by done. exact Hp. }
  erewrite run_bind; cycle 1.
  { eapply run_max_drawdown; [apply Hin|]. unfold f1'.
    rewrite lookup_set_column_ne by apply cumulative_ne. exact Hr. }
  cbn [frames position]. rewrite list_insert_insert_eq.
  reflexivity.
Qed.

End RunMetrics.

(** ** The standard deviation of a finite column *)

Lemma foldl_fadd_Fin a l : foldl fadd (Fin a) (Fin <$> l) = Fin (foldl Qcplus a l).
Proof. revert a. induction l as [|x l IH]; intros a; cbn; [done|]. by rewrite IH. Qed.

Lemma fsum_Fin l : fsum (Fin <$> l) = Fin (Qc_sum l).
Proof. apply foldl_fadd_Fin. Qed.

Lemma sstd_Fin fsqrt ps :
  (2 <= length ps)%nat ->
  sstd fsqrt (Fin <$> ps) = fsqrt (Fin (sample_variance ps)).
Proof.
  intros Hn. unfold sstd. rewrite dropna_Fin, length_fmap.
  rewrite decide_False by lia. cbn zeta.
  rewrite fsum_Fin. unfold of_nat, of_Z. fold (Qc_of_nat (length ps)).
  rewrite fdiv_Fin by (apply Qc_of_nat_ne_0; lia).
  fold (Qc_mean ps).
  rewrite <- (list_fmap_compose Fin).
  change ((fun x => fmul (fsub (Fin (Qc_mean ps)) x) (fsub (Fin (Qc_mean ps)) x)) ∘ Fin)
    with (Fin ∘ (fun x => (Qc_mean ps - x) * (Qc_mean ps - x))).
  rewrite (list_fmap_compose _ Fin), fsum_Fin.
  fold (Qc_of_nat (length ps - 1)).
  rewrite fdiv_Fin by (apply Qc_of_nat_ne_0; lia).
  done.
Qed.

Lemma last_is_Some {A} (l : list A) : l ≠ [] -> is_Some (last l).
Proof.
  intros Hl. destruct l as [|x l] using rev_ind; [done|].
  rewrite last_snoc. by eexists.
Qed.

(** ** C3: the metrics of [return_metrics] *)



(** ** One turn of the search *)

Lemma strategy_returns_length win p : length (strategy_returns win p) = length p.
Proof.
  unfold strategy_returns, smul.
  rewrite length_zip_with, pct_change_length, shift1_length, length_fmap,
    raw_signal_length. lia.
Qed.

Section RunSearch.
Variable fsqrt : float -> float.
Variable fpow : float -> float -> float.

Lemma run_backtest h pos d f pc sc p win :
  h !! d = Some f ->
  searchable f pc sc p [win] ->
  (df ← trend_following d pc sc win; return_metrics fsqrt fpow df pc sc "daily")
    (mkWorld pos h)
  = Ok ((default NaN (last (cumulative_returns (strategy_returns win p))),
         cagr_daily fpow (index_len f)
           (default NaN (last (cumulative_returns (strategy_returns win p)))),
         vol_daily fsqrt p,
         sharpe_daily fsqrt fpow (index_len f)
           (default NaN (last (cumulative_returns (strategy_returns win p)))) p,
         max_dd_of (strategy_returns win p)),
        mkWorld (final_position 0 (raw_signal win p))
                (h ++ [rm_frame (tf_frame f sc win p) sc (strategy_returns win p)])).
Proof.
  intros Hf (Hp & Lp & Hne & N1 & N2 & N3 & Hwin).
  apply Forall_singleton in Hwin as (Hw & N4 & N5).
  erewrite run_bind; [| by apply run_trend_following].
  cbn [frames].
  destruct (last_is_Some (cumulative_returns (strategy_returns win p))) as [x Hx].
  { intros E. apply (f_equal length) in E.
    rewrite cumulative_returns_length, strategy_returns_length in E.
    by destruct p. }
  rewrite Hx. cbn [default].
  erewrite (run_return_metrics fsqrt fpow _ (length h) (tf_frame f sc win p) pc sc
              (strategy_returns win p) p x).
  - cbn [position frames index_len tf_frame set_column]. by rewrite insert_top.
  - apply lookup_top.
  - apply lookup_set_column.
  - unfold tf_frame. rewrite !lookup_set_column_ne by done. exact Hp.
  - done.
  - cbn. rewrite <- Lp. by destruct p.
  - exact Hx.
Qed.

Lemma run_grid_step h pos d f pc sc p st win :
  h !! d = Some f ->
  searchable f pc sc p [win] ->
  exists pos' g,
    grid_step fsqrt fpow d pc sc st win (mkWorld pos h)
    = Ok (search_step (window_objective fsqrt fpow (index_len f) p) st win,
          mkWorld pos' (h ++ [g])).
Proof.
  intros Hf Hs. eexists _, _. unfold grid_step.
  pose proof (run_backtest h pos d f pc sc p win Hf Hs) as Hrun.
  unfold mbind, M_bind, bind in Hrun |- *.
  destruct (trend_following d pc sc win (mkWorld pos h)) as [[df w1]|e]; [|done].
  rewrite Hrun. unfold search_step, window_objective, objective_daily.
  cbn zeta.
  destruct (fgt _ (max_objective_value st)); reflexivity.
Qed.

Lemma run_grid_loop d f pc sc p window_range :
  searchable f pc sc p window_range ->
  forall st pos h, h !! d = Some f ->
    exists pos' gs,
      foldM (grid_step fsqrt fpow d pc sc) st window_range (mkWorld pos h)
      = Ok (foldl (search_step (window_objective fsqrt fpow (index_len f) p)) st
                  window_range,
            mkWorld pos' (h ++ gs)).
Proof.
  intros (Hp & Lp & Hne & N1 & N2 & N3 & Hwin).
  induction Hwin as [|win l Hw Hl IH]; intros st pos h Hf.
  - exists pos, []. cbn. by rewrite app_nil_r.
  - destruct (run_grid_step h pos d f pc sc p st win Hf) as (pos1 & g & Hstep).
    { repeat split; try done. by apply Forall_singleton. }
    destruct (IH (search_step (window_objective fsqrt fpow (index_len f) p) st win)
                 pos1 (h ++ [g])) as (pos' & gs & Hrest).
    { by apply lookup_app_l_Some. }
    exists pos', (g :: gs). cbn [foldM foldl].
    erewrite run_bind; [| exact Hstep].
    rewrite Hrest. by rewrite <- app_assoc.
Qed.

Lemma run_grid_search w d f pc sc p window_range :
  frames w !! d = Some f ->
  searchable f pc sc p window_range ->
  exists pos' gs,
    grid_loop fsqrt fpow d pc sc window_range w
    = Ok (foldl (search_step (window_objective fsqrt fpow (index_len f) p))
                (mkSearch None NInf []) window_range,
          mkWorld pos' (frames w ++ gs)) /\
    grid_search fsqrt fpow d pc sc window_range w
    = Ok (optimal_window
            (foldl (search_step (window_objective fsqrt fpow (index_len f) p))
                   (mkSearch None NInf []) window_range),
          mkWorld pos' (frames w ++ gs)).
Proof.
  intros Hf Hs. destruct w as [pos h]. cbn [frames] in *.
  destruct (run_grid_loop d f pc sc p window_range Hs (mkSearch None NInf []) pos h Hf)
    as (pos' & gs & Hrun).
  exists pos', gs. split; [exact Hrun|].
  unfold grid_search. erewrite run_bind; [| exact Hrun]. reflexivity.
Qed.
End RunSearch.

(** ** The order on floats *)

Ltac float_cases :=
  cbn in *; try done;
  repeat case_bool_decide; try done;
  try (exfalso; qc_to_q; lra).

Lemma fgt_trans_not x o m :
  fgt o m = true -> fgt x m = false -> fgt x o = false.
Proof. unfold fgt. destruct x, o, m; float_cases. Qed.

Lemma fgt_not_fle x o m :
  fgt o m = true -> fgt x m = false -> fle o x = false.
Proof. unfold fgt. destruct x, o, m; float_cases. Qed.

Lemma fgt_above_NInf o m : fgt o m = true -> fgt o NInf = true.
Proof. unfold fgt. destruct o, m; float_cases. Qed.

Lemma fgt_NInf_false o : fgt o NInf = false -> o = NaN \/ o = NInf.
Proof. unfold fgt. destruct o; float_cases; auto. Qed.

Lemma fle_not_fgt x m : fgt m NInf = true -> fle m x = false -> fgt x m = false.
Proof. unfold fgt. destruct x, m; float_cases. Qed.

Lemma fgt_PInf_false m : fgt m NInf = true -> fgt PInf m = false -> m = PInf.
Proof. unfold fgt. destruct m; float_cases. Qed.

(** ** The loop of [grid_search] on its variables *)

Section Search.
Variable objective : nat -> float.

Lemma selected_init : selected objective [] (mkSearch None NInf []).
Proof. split; [done|]. cbn. split; [done|]. intros win H. by apply elem_of_nil in H. Qed.

Lemma selected_step l st win :
  selected objective l st ->
  selected objective (l ++ [win]) (search_step objective st win).
Proof.
  intros [Hres Hsel]. unfold search_step. cbn zeta.
  destruct (fgt (objective win) (max_objective_value st)) eqn:Hgt.
  - split; [cbn; by rewrite Hres, fmap_app|]. cbn.
    split; [done|]. split; [by eapply fgt_above_NInf|].
    exists (length l). split; [by rewrite lookup_app_r, Nat.sub_diag|].
    assert (forall j w', l !! j = Some w' ->
              fgt (objective w') (max_objective_value st) = false) as Hold.
    { intros j w' Hj. destruct (optimal_window st) as [best|].
      - destruct Hsel as (Hmax & _ & i & _ & Hub & _). rewrite Hmax. by eapply Hub.
      - destruct Hsel as (Hmax & Hall). rewrite Hmax. apply Hall.
        by eapply list_elem_of_lookup_2. }
    split.
    + intros j w' Hj. apply lookup_app_Some in Hj as [Hj | [Hlen Hj]].
      * eapply fgt_trans_not; [exact Hgt | by eapply Hold].
      * destruct (j - length l)%nat; [|done]. injection Hj as <-.
        unfold fgt. destruct (objective win); float_cases.
    + intros j w' Hlt Hj. rewrite lookup_app_l in Hj by done.
      eapply fgt_not_fle; [exact Hgt | by eapply Hold].
  - split; [cbn; by rewrite Hres, fmap_app|]. cbn.
    destruct (optimal_window st) as [best|].
    + destruct Hsel as (Hmax & Hbest & i & Hi & Hub & Hearly).
      split; [done|]. split; [done|].
      exists i. split; [by apply lookup_app_l_Some|].
      split.
      * intros j w' Hj. apply lookup_app_Some in Hj as [Hj | [Hlen Hj]];
          [by eapply Hub|].
        destruct (j - length l)%nat; [|done]. injection Hj as <-.
        by rewrite <- Hmax.
      * intros j w' Hlt Hj. apply lookup_lt_Some in Hi.
        rewrite lookup_app_l in Hj by lia. by eapply Hearly.
    + destruct Hsel as (Hmax & Hall). split; [done|].
      intros w' Hw'. apply elem_of_app in Hw' as [Hw' | Hw']; [by apply Hall|].
      apply list_elem_of_singleton in Hw' as ->. rewrite Hmax in Hgt. exact Hgt.
Qed.

Lemma selected_foldl l0 st l :
  selected objective l0 st ->
  selected objective (l0 ++ l) (foldl (search_step objective) st l).
Proof.
  revert l0 st. induction l as [|win l IH]; intros l0 st Hsel; cbn.
  - by rewrite app_nil_r.
  - replace (l0 ++ win :: l) with ((l0 ++ [win]) ++ l) by (by rewrite <- app_assoc).
    apply IH. by apply selected_step.
Qed.

Lemma selected_search l :
  selected objective l (foldl (search_step objective) (mkSearch None NInf []) l).
Proof. apply (selected_foldl [] _ l), selected_init. Qed.
End Search.

(** ** C5: what the search returns *)

Lemma searchable_one f pc sc p window_range win :
  searchable f pc sc p window_range -> win ∈ window_range ->
  searchable f pc sc p [win].
Proof.
  intros (Hp & Lp & Hne & N1 & N2 & N3 & Hwin) Hin. repeat split; try done.
  apply Forall_singleton. by eapply Forall_forall in Hwin.
Qed.

(** C5, as the code has it.  [grid_search] goes through the candidate
    windows in order (by default 10, 20, ..., 200), gives each the
    objective Sharpe / MaxDrawdown of its backtest, and returns the single
    window selected by the strictly-greater comparison: the earliest
    candidate whose objective exceeds -inf and that no candidate exceeds,
    or [None] when no objective exceeds -inf.  The list of
    (window, objective) pairs is built in the loop but only the window is
    returned. *)
Theorem grid_search_selection fsqrt fpow w d f pc sc p window_range :
  frames w !! d = Some f ->
  searchable f pc sc p window_range ->
  let objective := window_objective fsqrt fpow (index_len f) p in
  default_window_range
  = [10; 20; 30; 40; 50; 60; 70; 80; 90; 100;
     110; 120; 130; 140; 150; 160; 170; 180; 190; 200]%nat /\
  (forall win pos h, win ∈ window_range -> h !! d = Some f ->
     exists total cagr vol sharpe mdd,
       value_of ((df ← trend_following d pc sc win;
                  return_metrics fsqrt fpow df pc sc "daily") (mkWorld pos h))
       = Ok (total, cagr, vol, sharpe, mdd) /\
       objective win = fdiv sharpe mdd) /\
  exists st w',
    grid_loop fsqrt fpow d pc sc window_range w = Ok (st, w') /\
    grid_search fsqrt fpow d pc sc window_range w = Ok (optimal_window st, w') /\
    results st = (fun win => (win, objective win)) <$> window_range /\
    match optimal_window st with
    | None => forall win, win ∈ window_range -> fgt (objective win) NInf = false
    | Some best =>
        fgt (objective best) NInf = true /\
        exists i, window_range !! i = Some best /\
          (forall j win, window_range !! j = Some win ->
             fgt (objective win) (objective best) = false) /\
          (forall j win, (j < i)%nat -> window_range !! j = Some win ->
             fle (objective best) (objective win) = false)
    end.
Proof.
  intros Hf Hs objective. split; [reflexivity|]. split.
  { intros win pos h Hin Hh. eexists _, _, _, _, _.
    rewrite (run_backtest fsqrt fpow h pos d f pc sc p win Hh)
      by (by eapply searchable_one).
    split; reflexivity. }
  destruct (run_grid_search fsqrt fpow w d f pc sc p window_range Hf Hs)
    as (pos' & gs & Hloop & Hsearch).
  eexists _, _. split; [exact Hloop|]. split; [exact Hsearch|].
  destruct (selected_search objective window_range) as [Hres Hsel].
  split; [exact Hres|]. fold objective.
  destruct (optimal_window _) as [best|].
  - destruct Hsel as (_ & Hbest & i & Hi & Hub & Hearly). split; [done|].
    exists i. by repeat split.
  - by destruct Hsel as (_ & Hall).
Qed.

Lemma rising_searchable window_range :
  Forall (fun win => (1 <= win)%nat) window_range ->
  searchable (frame_of_prices rising_prices) "close" "strat"
             (of_Z <$> rising_prices) window_range.
Proof.
  intros Hwin. repeat split; try done.
  eapply Forall_impl; [exact Hwin|]. intros win Hw. by repeat split.
Qed.

Lemma grid_search_selection_witness :
  let w := world_of_prices rising_prices in
  let f := frame_of_prices rising_prices in
  let p := of_Z <$> rising_prices in
  let window_range := [1; 2; 3]%nat in
  let objective := window_objective fsqrt_model fpow_model (index_len f) p in
  default_window_range
  = [10; 20; 30; 40; 50; 60; 70; 80; 90; 100;
     110; 120; 130; 140; 150; 160; 170; 180; 190; 200]%nat /\
  (forall win pos h, win ∈ window_range -> h !! 0%nat = Some f ->
     exists total cagr vol sharpe mdd,
       value_of ((df ← trend_following 0 "close" "strat" win;
                  return_metrics fsqrt_model fpow_model df "close" "strat" "daily")
                   (mkWorld pos h))
       = Ok (total, cagr, vol, sharpe, mdd) /\
       objective win = fdiv sharpe mdd) /\
  exists st w',
    grid_loop fsqrt_model fpow_model 0 "close" "strat" window_range w = Ok (st, w') /\
    grid_search fsqrt_model fpow_model 0 "close" "strat" window_range w
    = Ok (optimal_window st, w') /\
    results st = (fun win => (win, objective win)) <$> window_range /\
    match optimal_window st with
    | None => forall win, win ∈ window_range -> fgt (objective win) NInf = false
    | Some best =>
        fgt (objective best) NInf = true /\
        exists i, window_range !! i = Some best /\
          (forall j win, window_range !! j = Some win ->
             fgt (objective win) (objective best) = false) /\
          (forall j win, (j < i)%nat -> window_range !! j = Some win ->
             fle (objective best) (objective win) = false)
    end.
Proof.
  apply (grid_search_selection fsqrt_model fpow_model (world_of_prices rising_prices) 0
           (frame_of_prices rising_prices) "close" "strat" (of_Z <$> rising_prices)
           [1; 2; 3]%nat).
  - reflexivity.
  - apply rising_searchable. repeat constructor.
Defined.

Lemma results_length objective st l :
  length (results (foldl (search_step objective) st l))
  = (length (results st) + length l)%nat.
Proof.
  revert st. induction l as [|win l IH]; intros st; cbn; [lia|].
  rewrite IH. unfold search_step. cbn zeta.
  destruct (fgt _ _); cbn; rewrite length_app; cbn; lia.
Qed.

(** Two searches over the same data, one more candidate in the second:
    the lists of pairs differ, what is returned does not. *)
Lemma grid_search_returns_no_list :
  exists st1 st2 w1 w2,
    grid_loop fsqrt_model fpow_model 0 "close" "strat" [2]%nat
      (world_of_prices rising_prices) = Ok (st1, w1) /\
    grid_loop fsqrt_model fpow_model 0 "close" "strat" [2; 3]%nat
      (world_of_prices rising_prices) = Ok (st2, w2) /\
    length (results st1) = 1%nat /\
    length (results st2) = 2%nat /\
    value_of (grid_search fsqrt_model fpow_model 0 "close" "strat" [2]%nat
                (world_of_prices rising_prices)) = Ok (Some 2%nat) /\
    value_of (grid_search fsqrt_model fpow_model 0 "close" "strat" [2; 3]%nat
                (world_of_prices rising_prices)) = Ok (Some 2%nat).
Proof.
  destruct (run_grid_search fsqrt_model fpow_model (world_of_prices rising_prices) 0
              (frame_of_prices rising_prices) "close" "strat"
              (of_Z <$> rising_prices) [2]%nat) as (pos1 & gs1 & H1 & _);
    [reflexivity | apply rising_searchable; repeat constructor |].
  destruct (run_grid_search fsqrt_model fpow_model (world_of_prices rising_prices) 0
              (frame_of_prices rising_prices) "close" "strat"
              (of_Z <$> rising_prices) [2; 3]%nat) as (pos2 & gs2 & H2 & _);
    [reflexivity | apply rising_searchable; repeat constructor |].
  eexists _, _, _, _. split; [exact H1|]. split; [exact H2|].
  split; [by rewrite results_length|]. split; [by rewrite results_length|].
  split; vm_compute; reflexivity.
Qed.

(** ** C6: a candidate without drawdown *)

Lemma signed_inf_cases a :
  signed_inf a
  = if bool_decide (0 < a) then PInf else if bool_decide (a < 0) then NInf else NaN.
Proof.
  unfold signed_inf. destruct (a ?= 0) eqn:E.
  - apply Qceq_alt in E as ->. done.
  - apply Qclt_alt in E.
    rewrite bool_decide_eq_false_2, bool_decide_eq_true_2; [done..|].
    intros H. qc_to_q. lra.
  - apply Qcgt_alt in E. by rewrite bool_decide_eq_true_2.
Qed.

(** Division by zero raises nothing: it gives an infinity with the sign of
    the dividend, NaN for a dividend that is zero or NaN. *)
Lemma fdiv_zero x :
  fdiv x f0 = if flt f0 x then PInf else if flt x f0 then NInf else NaN.
Proof.
  destruct x as [| | |a]; try done.
  cbn. rewrite decide_True by done. apply signed_inf_cases.
Qed.

(** C6, as the code has it.  [grid_search] has no guard for a zero
    MaxDrawdown.  The objective of such a candidate is the quotient
    Sharpe / 0 of IEEE arithmetic: +inf for a positive Sharpe ratio, -inf
    for a negative one, NaN for a Sharpe ratio that is zero or NaN.  The
    search goes on to the remaining candidates and returns normally.  A
    candidate whose Sharpe ratio is not positive is never returned; one
    whose Sharpe ratio is positive makes the search return a window of
    objective +inf, and is returned itself when no earlier candidate
    reaches +inf. *)
Theorem grid_search_zero_drawdown fsqrt fpow w d f pc sc p window_range i win :
  frames w !! d = Some f ->
  searchable f pc sc p window_range ->
  window_range !! i = Some win ->
  max_dd_of (strategy_returns win p) = f0 ->
  let objective := window_objective fsqrt fpow (index_len f) p in
  exists total cagr vol sharpe best w',
    value_of ((df ← trend_following d pc sc win;
               return_metrics fsqrt fpow df pc sc "daily") w)
    = Ok (total, cagr, vol, sharpe, f0) /\
    objective win = fdiv sharpe f0 /\
    objective win
    = (if flt f0 sharpe then PInf else if flt sharpe f0 then NInf else NaN) /\
    grid_search fsqrt fpow d pc sc window_range w = Ok (best, w') /\
    (flt f0 sharpe = false -> best ≠ Some win) /\
    (flt f0 sharpe = true -> exists b, best = Some b /\ objective b = PInf) /\
    (flt f0 sharpe = true ->
     (forall j win', (j < i)%nat -> window_range !! j = Some win' ->
        objective win' ≠ PInf) ->
     best = Some win).
Proof.
  intros Hf Hs Hi Hdd objective.
  assert (win ∈ window_range) as Hin by (by eapply list_elem_of_lookup_2).
  destruct (run_grid_search fsqrt fpow w d f pc sc p window_range Hf Hs)
    as (pos' & gs & _ & Hsearch).
  destruct (selected_search objective window_range) as [_ Hsel].
  fold objective in Hsearch.
  set (sharpe := sharpe_daily fsqrt fpow (index_len f)
         (default NaN (last (cumulative_returns (strategy_returns win p)))) p).
  assert (objective win = fdiv sharpe f0) as Hobj.
  { unfold objective, window_objective, objective_daily. by rewrite Hdd. }
  assert (objective win
          = if flt f0 sharpe then PInf else if flt sharpe f0 then NInf else NaN)
    as Hcases by (by rewrite Hobj, fdiv_zero).
  eexists _, _, _, sharpe, _, _.
  split.
  { destruct w as [pos h].
    rewrite (run_backtest fsqrt fpow h pos d f pc sc p win Hf)
      by (by eapply searchable_one).
    cbn [value_of]. by rewrite Hdd. }
  split; [done|]. split; [done|]. split; [exact Hsearch|].
  destruct (optimal_window _) as [b|].
  - destruct Hsel as (_ & Hb & ib & Hib & Hub & Hearly).
    split; [|split].
    + intros Hneg [= ->]. rewrite Hcases, Hneg in Hb.
      by destruct (flt sharpe f0).
    + intros Hpos. exists b. split; [done|].
      rewrite Hpos in Hcases. specialize (Hub i win Hi).
      rewrite Hcases in Hub. by apply fgt_PInf_false.
    + intros Hpos Hfirst. rewrite Hpos in Hcases.
      assert (objective b = PInf) as HbInf.
      { specialize (Hub i win Hi). rewrite Hcases in Hub.
        by apply fgt_PInf_false. }
      destruct (Nat.lt_total ib i) as [Hlt | [-> | Hlt]].
      * by destruct (Hfirst ib b Hlt Hib).
      * congruence.
      * specialize (Hearly i win Hlt Hi). by rewrite HbInf, Hcases in Hearly.
  - destruct Hsel as (_ & Hall). specialize (Hall win Hin).
    split; [done|]. split.
    + intros Hpos. by rewrite Hcases, Hpos in Hall.
    + intros Hpos _. by rewrite Hcases, Hpos in Hall.
Qed.

Ltac float_compute :=
  apply (bool_decide_eq_true_1 _); vm_compute; reflexivity.

Lemma rising_no_drawdown :
  max_dd_of (strategy_returns 2 (of_Z <$> rising_prices)) = f0.
Proof. float_compute. Qed.

Lemma grid_search_zero_drawdown_witness :
  let w := world_of_prices rising_prices in
  let f := frame_of_prices rising_prices in
  let p := of_Z <$> rising_prices in
  let window_range := [1; 2; 3]%nat in
  let objective := window_objective fsqrt_model fpow_model (index_len f) p in
  exists total cagr vol sharpe best w',
    value_of ((df ← trend_following 0 "close" "strat" 2;
               return_metrics fsqrt_model fpow_model df "close" "strat" "daily") w)
    = Ok (total, cagr, vol, sharpe, f0) /\
    objective 2%nat = fdiv sharpe f0 /\
    objective 2%nat
    = (if flt f0 sharpe then PInf else if flt sharpe f0 then NInf else NaN) /\
    grid_search fsqrt_model fpow_model 0 "close" "strat" window_range w
    = Ok (best, w') /\
    (flt f0 sharpe = false -> best ≠ Some 2%nat) /\
    (flt f0 sharpe = true -> exists b, best = Some b /\ objective b = PInf) /\
    (flt f0 sharpe = true ->
     (forall j win', (j < 1)%nat -> window_range !! j = Some win' ->
        objective win' ≠ PInf) ->
     best = Some 2%nat).
Proof.
  apply (grid_search_zero_drawdown fsqrt_model fpow_model
           (world_of_prices rising_prices) 0 (frame_of_prices rising_prices)
           "close" "strat" (of_Z <$> rising_prices) [1; 2; 3]%nat 1 2).
  - reflexivity.
  - apply rising_searchable. repeat constructor.
  - reflexivity.
  - apply (bool_decide_eq_true_1 _). vm_compute. reflexivity.
Defined.

(** On the prices 1, 2, 3, 4, 5 the window 2 is long from the third day on
    and never loses: its MaxDrawdown is 0, its objective +inf, and
    [grid_search] returns it. *)
Lemma grid_search_returns_zero_drawdown_window :
  (exists total cagr vol sharpe,
     value_of ((df ← trend_following 0 "close" "strat" 2;
                return_metrics fsqrt_model fpow_model df "close" "strat" "daily")
                 (world_of_prices rising_prices))
     = Ok (total, cagr, vol, sharpe, f0)) /\
  value_of (grid_search fsqrt_model fpow_model 0 "close" "strat" [1; 2; 3]%nat
              (world_of_prices rising_prices)) = Ok (Some 2%nat).
Proof.
  split.
  - eexists _, _, _, _. unfold world_of_prices.
    rewrite (run_backtest fsqrt_model fpow_model _ _ 0 (frame_of_prices rising_prices)
               "close" "strat" (of_Z <$> rising_prices) 2);
      [| reflexivity | apply rising_searchable; repeat constructor].
    cbn [value_of]. by rewrite rising_no_drawdown.
  - vm_compute. reflexivity.
Qed.

(** ** C7: what [return_metrics] checks *)


Lemma fdiv_nan_r x : fdiv x NaN = NaN.
Proof. by destruct x. Qed.





(** ** A constant price *)

Lemma zip_fmul_signal v l :
  v = NaN \/ v = f0 ->
  Forall (fun y => y = of_Z 0 \/ y = of_Z 1) l ->
  zip_with fmul (replicate (length l) v) l = replicate (length l) v.
Proof.
  intros Hv Hl. rewrite zip_with_replicate_l by done.
  apply const_fmap. intros i y Hy.
  eapply Forall_lookup_1 in Hl; [|exact Hy].
  destruct Hv as [-> | ->]; [done|].
  destruct Hl as [-> | ->]; cbn; f_equal; apply Qcmult_0_l.
Qed.

Lemma raw_signal_Forall win p :
  Forall (fun y => y = of_Z 0 \/ y = of_Z 1) (of_Z <$> raw_signal win p).
Proof.
  apply Forall_fmap, Forall_lookup_2. intros i z Hz. cbn.
  destruct (signals_01 0 _ _ _ i z (or_introl eq_refl) Hz) as [-> | ->]; auto.
Qed.

(** At a constant price [c] the strategy return is NaN on the first day
    and, later on, 0 for [c ≠ 0] and NaN for [c = 0], whatever the signal. *)
Lemma strategy_returns_constant win c k :
  strategy_returns win (replicate (S k) (Fin c))
  = NaN :: replicate k (if decide (c = 0) then NaN else f0).
Proof.
  unfold strategy_returns, smul, pct_change.
  assert (length (of_Z <$> raw_signal win (replicate (S k) (Fin c))) = S k) as Lsig
    by (by rewrite length_fmap, raw_signal_length, length_replicate).
  unfold shift1. rewrite Lsig, length_replicate.
  cbn [replicate take zip_with].
  f_equal.
  change (Fin c :: replicate k (Fin c)) with (replicate (S k) (Fin c)).
  rewrite take_replicate. replace (k `min` S k)%nat with k by lia.
  rewrite zip_with_replicate.
  set (v := fsub (fdiv (Fin c) (Fin c)) f1).
  assert (v = if decide (c = 0) then NaN else f0) as Hv.
  { unfold v. cbn. destruct (decide (c = 0)) as [-> | Hc]; [done|].
    cbn. f_equal. field. exact Hc. }
  set (l := take k (of_Z <$> raw_signal win (replicate (S k) (Fin c)))).
  assert (length l = k) as Ll by (unfold l; rewrite length_take; lia).
  rewrite <- Ll at 1. rewrite zip_fmul_signal; [by rewrite Ll, Hv | |].
  - rewrite Hv. destruct (decide (c = 0)); auto.
  - apply Forall_take, raw_signal_Forall.
Qed.

Lemma cumulative_returns_nan k : cumulative_returns (replicate k NaN) = replicate k NaN.
Proof.
  unfold cumulative_returns, cumprod. generalize f1 at 2.
  induction k as [|k IH]; intros a; [done|]. cbn. f_equal. apply IH.
Qed.

Lemma cumprod_from_ones k : cumprod_from f1 (replicate k f1) = replicate k f1.
Proof.
  induction k as [|k IH]; [done|]. cbn.
  replace (Fin (1 * 1)) with f1 by (f_equal; ring). by rewrite IH.
Qed.

Lemma cumulative_returns_zero k :
  cumulative_returns (NaN :: replicate k f0) = NaN :: replicate k f0.
Proof.
  unfold cumulative_returns, cumprod. cbn. f_equal.
  rewrite fmap_replicate.
  replace (fadd f1 f0) with f1 by (cbn; f_equal; ring).
  rewrite cumprod_from_ones, fmap_replicate. f_equal.
Qed.

Lemma max_dd_of_nan k : max_dd_of (replicate k NaN) = NaN.
Proof.
  unfold max_dd_of. rewrite cumulative_returns_nan.
  assert (drawdown_curve (replicate k NaN) = replicate k NaN) as ->.
  { unfold drawdown_curve, sdiv, cummax. generalize NInf.
    induction k as [|k IH]; intros a; [done|]. cbn. f_equal. apply IH. }
  unfold smax, dropna. by induction k.
Qed.

Lemma Qc_of_nat_S n : Qc_of_nat (S n) = 1 + Qc_of_nat n.
Proof.
  unfold Qc_of_nat. rewrite Nat2Z.inj_succ. qc_to_q.
  unfold Z.succ. rewrite inject_Z_plus. unfold inject_Z. lra.
Qed.

Lemma foldl_Qcplus_replicate a n c :
  foldl Qcplus a (replicate n c) = a + Qc_of_nat n * c.
Proof.
  revert a. induction n as [|n IH]; intros a.
  - change (a = a + 0 * c). ring.
  - cbn [replicate foldl]. rewrite IH, Qc_of_nat_S. ring.
Qed.

Lemma sample_variance_constant n c : n ≠ 0%nat -> sample_variance (replicate n c) = 0.
Proof.
  intros Hn. unfold sample_variance.
  assert (Qc_mean (replicate n c) = c) as ->.
  { unfold Qc_mean, Qc_sum. rewrite foldl_Qcplus_replicate, length_replicate.
    field. by apply Qc_of_nat_ne_0. }
  rewrite fmap_replicate. unfold Qc_sum. rewrite foldl_Qcplus_replicate.
  unfold Qcdiv. ring.
Qed.

Lemma last_replicate_S {A} k (x : A) : last (replicate (S k) x) = Some x.
Proof.
  induction k as [|k IH]; [done|].
  change (replicate (S (S k)) x) with (x :: replicate (S k) x).
  by rewrite last_cons, IH.
Qed.

Section Constant.
Variable fsqrt : float -> float.
Variable fpow : float -> float -> float.
Hypothesis fpow_one : forall y, fpow f1 y = f1.
Hypothesis fsqrt_zero : fsqrt f0 = f0.
Hypothesis fsqrt_year : exists s, fsqrt (of_Z 365) = Fin s.

Lemma vol_daily_constant n c : (2 <= n)%nat -> vol_daily fsqrt (replicate n (Fin c)) = f0.
Proof.
  intros Hn. unfold vol_daily. destruct fsqrt_year as [s ->].
  rewrite <- fmap_replicate, sstd_Fin by (rewrite length_replicate; lia).
  rewrite sample_variance_constant by lia. rewrite fsqrt_zero.
  cbn. f_equal. ring.
Qed.

Lemma constant_objective_nan T c n win :
  n ≠ 0%nat -> window_objective fsqrt fpow T (replicate n (Fin c)) win = NaN.
Proof.
  intros Hn. destruct n as [|k]; [done|].
  unfold window_objective, objective_daily.
  rewrite strategy_returns_constant.
  destruct (decide (c = 0)) as [Hc | Hc]; [|destruct k as [|k]].
  - change (NaN :: replicate k NaN) with (replicate (S k) NaN).
    by rewrite max_dd_of_nan, fdiv_nan_r.
  - change (NaN :: replicate 0 f0) with (replicate 1 NaN).
    by rewrite max_dd_of_nan, fdiv_nan_r.
  - rewrite cumulative_returns_zero.
    rewrite last_cons, last_replicate_S.
    change (default NaN (Some f0)) with f0. unfold sharpe_daily.
    rewrite vol_daily_constant by lia.
    unfold cagr_daily.
    replace (fdiv (fmul (of_Z 100) (fadd f1 f0)) (of_Z 100)) with f1
      by (symmetry; float_compute).
    rewrite fpow_one. done.
Qed.

(** ** C8: the search over a constant price *)

(** C8.  For every non-empty constant price series and every range of
    windows of at least one period, every candidate's objective is NaN, no
    candidate passes the strictly-greater comparison, and [grid_search]
    returns normally with [None] for the optimal window. *)
Theorem grid_search_constant_prices w d f pc sc c n window_range :
  frames w !! d = Some f ->
  searchable f pc sc (replicate n (Fin c)) window_range ->
  exists st w',
    grid_loop fsqrt fpow d pc sc window_range w = Ok (st, w') /\
    grid_search fsqrt fpow d pc sc window_range w = Ok (None, w') /\
    optimal_window st = None /\
    max_objective_value st = NInf /\
    results st = (fun win => (win, NaN)) <$> window_range.
Proof.
  intros Hf Hs.
  assert (n ≠ 0%nat) as Hn.
  { destruct Hs as (_ & _ & Hne & _). by destruct n. }
  destruct (run_grid_search fsqrt fpow w d f pc sc _ window_range Hf Hs)
    as (pos' & gs & Hloop & Hsearch).
  destruct (selected_search (window_objective fsqrt fpow (index_len f)
              (replicate n (Fin c))) window_range) as [Hres Hsel].
  assert (optimal_window
            (foldl (search_step (window_objective fsqrt fpow (index_len f)
                      (replicate n (Fin c))))
               (mkSearch None NInf []) window_range) = None) as Hnone.
  { destruct (optimal_window _) as [best|]; [|done].
    destruct Hsel as (_ & Hbest & _).
    by rewrite constant_objective_nan in Hbest. }
  rewrite Hnone in Hsearch, Hsel.
  eexists _, _. split; [exact Hloop|]. split; [exact Hsearch|].
  split; [exact Hnone|]. split; [by destruct Hsel|].
  rewrite Hres. apply list_fmap_ext. intros i win _.
  by rewrite constant_objective_nan.
Qed.
End Constant.

Lemma fpow_model_one y : fpow_model f1 y = f1.
Proof. unfold fpow_model. by rewrite decide_True. Qed.

Lemma fsqrt_model_zero : fsqrt_model f0 = f0.
Proof. float_compute. Qed.

Lemma fsqrt_model_year : exists s, fsqrt_model (of_Z 365) = Fin s.
Proof. by exists (Qroot 2 (Q2Qc (inject_Z 365))). Qed.

Lemma default_windows_positive : Forall (fun win => (1 <= win)%nat) default_window_range.
Proof. apply Forall_forall. intros win Hin. apply list_elem_of_fmap in Hin as (i & -> & Hi).
  apply elem_of_seq in Hi. lia. Qed.

Lemma flat_searchable window_range :
  Forall (fun win => (1 <= win)%nat) window_range ->
  searchable (frame_of_prices flat_prices) "close" "strat"
             (replicate 5 (Fin (Q2Qc (inject_Z 5)))) window_range.
Proof.
  intros Hwin. repeat split; try done.
  eapply Forall_impl; [exact Hwin|]. intros win Hw. by repeat split.
Qed.

Lemma grid_search_constant_prices_witness :
  exists st w',
    grid_loop fsqrt_model fpow_model 0 "close" "strat" default_window_range
      (world_of_prices flat_prices) = Ok (st, w') /\
    grid_search fsqrt_model fpow_model 0 "close" "strat" default_window_range
      (world_of_prices flat_prices) = Ok (None, w') /\
    optimal_window st = None /\
    max_objective_value st = NInf /\
    results st = (fun win => (win, NaN)) <$> default_window_range.
Proof.
  apply (grid_search_constant_prices fsqrt_model fpow_model
           fpow_model_one fsqrt_model_zero fsqrt_model_year
           (world_of_prices flat_prices) 0 (frame_of_prices flat_prices)
           "close" "strat" (Q2Qc (inject_Z 5)) 5 default_window_range).
  - reflexivity.
  - apply flat_searchable, default_windows_positive.
Defined.

(** ** C9: runs do not depend on what ran before *)

(** C9.  Take two interpreter states that hold the same input frame, at
    any two places, with any value of the global [position] and any other
    frames next to it; the second may be what the first run has left
    behind.  [trend_following] builds the same frame in both, position and
    return columns included, and [grid_search] returns the same window in
    both; each run leaves the input frame and every other frame that was
    there as it found them. *)
Theorem runs_are_reproducible fsqrt fpow w1 w2 d1 d2 f pc sc p win window_range :
  frames w1 !! d1 = Some f ->
  frames w2 !! d2 = Some f ->
  searchable f pc sc p window_range ->
  win ∈ window_range ->
  (exists g w1' w2',
     trend_following d1 pc sc win w1 = Ok (length (frames w1), w1') /\
     trend_following d2 pc sc win w2 = Ok (length (frames w2), w2') /\
     frames w1' !! length (frames w1) = Some g /\
     frames w2' !! length (frames w2) = Some g /\
     (forall l, (l < length (frames w1))%nat -> frames w1' !! l = frames w1 !! l) /\
     frames w1' !! d1 = Some f /\
     (exists w1'',
        trend_following d1 pc sc win w1' = Ok (length (frames w1'), w1'') /\
        frames w1'' !! length (frames w1') = Some g /\
        frames w1'' !! length (frames w1) = Some g /\
        frames w1'' !! d1 = Some f)) /\
  (exists best w1' w2',
     grid_search fsqrt fpow d1 pc sc window_range w1 = Ok (best, w1') /\
     grid_search fsqrt fpow d2 pc sc window_range w2 = Ok (best, w2') /\
     (forall l, (l < length (frames w1))%nat -> frames w1' !! l = frames w1 !! l) /\
     frames w1' !! d1 = Some f /\
     (exists w1'',
        grid_search fsqrt fpow d1 pc sc window_range w1' = Ok (best, w1'') /\
        frames w1'' !! d1 = Some f)).
Proof.
  intros Hf1 Hf2 Hs Hin.
  destruct (searchable_one f pc sc p window_range win Hs Hin)
    as (Hp & Lp & Hne & N1 & N2 & N3 & Hwin).
  apply Forall_singleton in Hwin as (Hw & N4 & N5).
  pose proof (lookup_lt_Some _ _ _ Hf1) as Hd1.
  split.
  - eexists _, _, _.
    split; [by apply run_trend_following|].
    split; [by apply run_trend_following|].
    cbn [frames].
    split; [apply lookup_top|]. split; [apply lookup_top|].
    split; [intros l Hl; by apply lookup_app_l|].
    split; [by apply lookup_app_l_Some|].
    eexists. split.
    { eapply run_trend_following; try done. by apply lookup_app_l_Some. }
    cbn [frames].
    split; [apply lookup_top|].
    split; [apply lookup_app_l_Some, lookup_top|].
    by do 2 apply lookup_app_l_Some.
  - destruct (run_grid_search fsqrt fpow w1 d1 f pc sc p window_range Hf1 Hs)
      as (pos1 & gs1 & _ & Hrun1).
    destruct (run_grid_search fsqrt fpow w2 d2 f pc sc p window_range Hf2 Hs)
      as (pos2 & gs2 & _ & Hrun2).
    assert (frames (mkWorld pos1 (frames w1 ++ gs1)) !! d1 = Some f) as Hf1'
      by (by apply lookup_app_l_Some).
    destruct (run_grid_search fsqrt fpow _ d1 f pc sc p window_range Hf1' Hs)
      as (pos3 & gs3 & _ & Hrun3).
    eexists _, _, _.
    split; [exact Hrun1|]. split; [exact Hrun2|].
    split; [intros l Hl; by apply lookup_app_l|].
    split; [exact Hf1'|].
    eexists. split; [exact Hrun3|].
    by apply lookup_app_l_Some.
Qed.

Lemma runs_are_reproducible_witness :
  let w1 := world_of_prices rising_prices in
  let w2 := mkWorld 0 [frame_of_prices flat_prices; frame_of_prices rising_prices] in
  let f := frame_of_prices rising_prices in
  let window_range := [1; 2; 3]%nat in
  (exists g w1' w2',
     trend_following 0 "close" "strat" 2 w1 = Ok (length (frames w1), w1') /\
     trend_following 1 "close" "strat" 2 w2 = Ok (length (frames w2), w2') /\
     frames w1' !! length (frames w1) = Some g /\
     frames w2' !! length (frames w2) = Some g /\
     (forall l, (l < length (frames w1))%nat -> frames w1' !! l = frames w1 !! l) /\
     frames w1' !! 0%nat = Some f /\
     (exists w1'',
        trend_following 0 "close" "strat" 2 w1' = Ok (length (frames w1'), w1'') /\
        frames w1'' !! length (frames w1') = Some g /\
        frames w1'' !! length (frames w1) = Some g /\
        frames w1'' !! 0%nat = Some f)) /\
  (exists best w1' w2',
     grid_search fsqrt_model fpow_model 0 "close" "strat" window_range w1
     = Ok (best, w1') /\
     grid_search fsqrt_model fpow_model 1 "close" "strat" window_range w2
     = Ok (best, w2') /\
     (forall l, (l < length (frames w1))%nat -> frames w1' !! l = frames w1 !! l) /\
     frames w1' !! 0%nat = Some f /\
     (exists w1'',
        grid_search fsqrt_model fpow_model 0 "close" "strat" window_range w1'
        = Ok (best, w1'') /\
        frames w1'' !! 0%nat = Some f)).
Proof.
  apply (runs_are_reproducible fsqrt_model fpow_model
           (world_of_prices rising_prices)
           (mkWorld 0 [frame_of_prices flat_prices; frame_of_prices rising_prices])
           0 1 (frame_of_prices rising_prices) "close" "strat"
           (of_Z <$> rising_prices) 2 [1; 2; 3]%nat).
  - reflexivity.
  - reflexivity.
  - apply rising_searchable. repeat constructor.
  - apply list_elem_of_further, list_elem_of_here.
Defined.

(** ** A window of one period *)







(** ** C10: window 1 *)




(** * Further properties of the backtester *)

(** ** Prices that are not yet known *)

Lemma rolling_mean_take w k s : rolling_mean w (take k s) = take k (rolling_mean w s).
Proof.
  apply list_eq. intros t. unfold rolling_mean.
  rewrite lookup_take, !list_lookup_imap, lookup_take.
  destruct (decide (t < k)%nat) as [Ht|Ht]; [|done].
  destruct (s !! t) as [x|] eqn:Hx; [|done]. cbn.
  destruct (decide (t + 1 < w)%nat); [done|].
  do 3 f_equal. rewrite skipn_firstn_comm, take_take. f_equal. lia.
Qed.

Lemma ewm_from_take d num den k s :
  ewm_from d num den (take k s) = take k (ewm_from d num den s).
Proof.
  revert num den k. induction s as [|x s IH]; intros num den [|k]; try done.
  cbn. by rewrite IH.
Qed.

Lemma ewm_mean_take w k s : ewm_mean w (take k s) = take k (ewm_mean w s).
Proof. apply ewm_from_take. Qed.

Lemma signals_take pos k c s e :
  signals pos (take k c) (take k s) (take k e) = take k (signals pos c s e).
Proof.
  revert pos k s e. induction c as [|x c IH]; intros pos [|k] [|y s] [|z e];
    try done.
  cbn. by rewrite IH.
Qed.

Lemma raw_signal_take w k p : raw_signal w (take k p) = take k (raw_signal w p).
Proof.
  unfold raw_signal. by rewrite rolling_mean_take, ewm_mean_take, signals_take.
Qed.

Lemma shift1_take k s : shift1 (take k s) = take k (shift1 s).
Proof.
  apply list_eq. intros t. unfold shift1.
  rewrite length_take, !lookup_take.
  destruct (decide (t < k)%nat) as [Hk|Hk], (decide (t < length s)%nat) as [Hs|Hs];
    rewrite ?decide_True, ?decide_False by lia; try done.
  destruct t as [|t]; [done|]. cbn. apply lookup_take_lt. lia.
Qed.

Lemma pct_change_take k s : pct_change (take k s) = take k (pct_change s).
Proof. unfold pct_change. by rewrite shift1_take, zip_with_take. Qed.

Lemma strategy_returns_take w k p :
  strategy_returns w (take k p) = take k (strategy_returns w p).
Proof.
  unfold strategy_returns, smul.
  by rewrite pct_change_take, raw_signal_take, fmap_take, shift1_take, zip_with_take.
Qed.

(** X1.  No look-ahead.  Two price columns that agree on their first [k]
    rows give, through [trend_following], raw signals, position columns
    and strategy returns that agree on their first [k] rows: what the
    strategy does up to a day does not depend on any later price. *)
Theorem trend_following_no_look_ahead wa wb da db fa fb pa pb pc sc win k :
  frames wa !! da = Some fa ->
  frames wb !! db = Some fb ->
  columns fa !! pc = Some pa ->
  columns fb !! pc = Some pb ->
  length pa = index_len fa ->
  length pb = index_len fb ->
  (1 <= win)%nat ->
  pc ≠ SMA_name win -> pc ≠ EMA_name win -> pc ≠ "position" ->
  sc ≠ "position" ->
  take k pa = take k pb ->
  exists wa' wb' ga gb ra rb qa qb,
    trend_following da pc sc win wa = Ok (length (frames wa), wa') /\
    trend_following db pc sc win wb = Ok (length (frames wb), wb') /\
    frames wa' !! length (frames wa) = Some ga /\
    frames wb' !! length (frames wb) = Some gb /\
    columns ga !! sc = Some ra /\
    columns gb !! sc = Some rb /\
    columns ga !! "position" = Some qa /\
    columns gb !! "position" = Some qb /\
    take k ra = take k rb /\
    take k qa = take k qb /\
    take k (raw_signal win pa) = take k (raw_signal win pb).
Proof.
  intros Hfa Hfb Hpa Hpb La Lb Hw N1 N2 N3 N4 Hk.
  eexists _, _, _, _, _, _, _, _.
  split; [by apply run_trend_following|].
  split; [by apply run_trend_following|].
  cbn [frames].
  split; [apply lookup_top|]. split; [apply lookup_top|].
  split; [apply lookup_set_column|]. split; [apply lookup_set_column|].
  split.
  { unfold tf_frame. rewrite lookup_set_column_ne by done. apply lookup_set_column. }
  split.
  { unfold tf_frame. rewrite lookup_set_column_ne by done. apply lookup_set_column. }
  split.
  { fold (strategy_returns win pa). fold (strategy_returns win pb).
    by rewrite <- !strategy_returns_take, Hk. }
  split.
  { by rewrite <- !shift1_take, <- !fmap_take, <- !raw_signal_take, Hk. }
  by rewrite <- !raw_signal_take, Hk.
Qed.

Lemma trend_following_no_look_ahead_witness :
  let wa := world_of_prices rising_prices in
  let wb := world_of_prices [1; 2; 3; 9; 1]%Z in
  exists wa' wb' ga gb ra rb qa qb,
    trend_following 0 "close" "strat" 2 wa = Ok (length (frames wa), wa') /\
    trend_following 0 "close" "strat" 2 wb = Ok (length (frames wb), wb') /\
    frames wa' !! length (frames wa) = Some ga /\
    frames wb' !! length (frames wb) = Some gb /\
    columns ga !! "strat" = Some ra /\
    columns gb !! "strat" = Some rb /\
    columns ga !! "position" = Some qa /\
    columns gb !! "position" = Some qb /\
    take 3 ra = take 3 rb /\
    take 3 qa = take 3 qb /\
    take 3 (raw_signal 2 (of_Z <$> rising_prices))
    = take 3 (raw_signal 2 (of_Z <$> [1; 2; 3; 9; 1]%Z)).
Proof.
  apply (trend_following_no_look_ahead (world_of_prices rising_prices)
           (world_of_prices [1; 2; 3; 9; 1]%Z) 0 0
           (frame_of_prices rising_prices) (frame_of_prices [1; 2; 3; 9; 1]%Z)
           (of_Z <$> rising_prices) (of_Z <$> [1; 2; 3; 9; 1]%Z) "close" "strat" 2 3).
  - reflexivity.
  - reflexivity.
  - reflexivity.
  - reflexivity.
  - reflexivity.
  - reflexivity.
  - lia.
  - discriminate.
  - discriminate.
  - discriminate.
  - discriminate.
  - reflexivity.
Defined.

(** ** What [trend_following] refuses and what it leaves in place *)

Lemma run_trend_following_missing w d f pc sc win :
  frames w !! d = Some f ->
  columns f !! pc = None ->
  trend_following d pc sc win w = Raise KeyError.
Proof.
  intros Hf Hp. destruct w as [pos h]. cbn [frames] in Hf.
  unfold trend_following.
  erewrite run_bind; [| reflexivity]. cbn [frames].
  erewrite run_bind; [| unfold copy; cbn; by rewrite Hf]. cbn [position frames].
  erewrite run_bind_raise; [done|].
  eapply run_getcol_missing; [apply lookup_top | done].
Qed.

Lemma run_trend_following_zero w d f pc sc :
  frames w !! d = Some f ->
  is_Some (columns f !! pc) ->
  trend_following d pc sc 0 w = Raise ValueError.
Proof.
  intros Hf [p Hp]. destruct w as [pos h]. cbn [frames] in Hf.
  unfold trend_following.
  erewrite run_bind; [| reflexivity]. cbn [frames].
  erewrite run_bind; [| unfold copy; cbn; by rewrite Hf]. cbn [position frames].
  erewrite run_bind; [| by apply run_getcol_top].
  erewrite run_bind; [| apply run_setcol_top].
  set (g := set_column _ _ f).
  assert (is_Some (columns g !! pc)) as [p' Hp'].
  { unfold g, set_column. cbn. rewrite lookup_insert.
    case_decide; [by eexists | by rewrite Hp]. }
  erewrite run_bind; [| by apply run_getcol_top].
  erewrite run_bind_raise; [done|]. reflexivity.
Qed.

(** X2.  [trend_following] raises KeyError when the frame has no column of
    the price column's name, and ValueError (from [ewm]) for a window of 0
    when the column is there. *)
Theorem trend_following_errors w d f pc sc win :
  frames w !! d = Some f ->
  (columns f !! pc = None -> trend_following d pc sc win w = Raise KeyError) /\
  (is_Some (columns f !! pc) -> trend_following d pc sc 0 w = Raise ValueError).
Proof.
  intros Hf. split.
  - by apply run_trend_following_missing.
  - by apply run_trend_following_zero.
Qed.

Lemma trend_following_errors_witness :
  trend_following 0 "open" "strat" 20 (world_of_prices rising_prices) = Raise KeyError /\
  trend_following 0 "close" "strat" 0 (world_of_prices rising_prices) = Raise ValueError.
Proof.
  split.
  - apply (proj1 (trend_following_errors (world_of_prices rising_prices) 0
                    (frame_of_prices rising_prices) "open" "strat" 20 eq_refl)).
    reflexivity.
  - apply (proj2 (trend_following_errors (world_of_prices rising_prices) 0
                    (frame_of_prices rising_prices) "close" "strat" 20 eq_refl)).
    by eexists.
Defined.

(** X3.  [trend_following] writes into a copy that has the rows of the
    input and leaves the input, like every frame there was, as it is: in
    the copy the index length is kept, the four columns [SMA_w], [EMA_w],
    [position] and the strategy column are set, and every other column is
    the input's. *)
Theorem trend_following_columns w d f p pc sc win :
  frames w !! d = Some f ->
  columns f !! pc = Some p ->
  length p = index_len f ->
  (1 <= win)%nat ->
  pc ≠ SMA_name win -> pc ≠ EMA_name win -> pc ≠ "position" ->
  exists w' f',
    trend_following d pc sc win w = Ok (length (frames w), w') /\
    length (frames w') = S (length (frames w)) /\
    frames w' !! length (frames w) = Some f' /\
    (forall l g, frames w !! l = Some g -> frames w' !! l = Some g) /\
    index_len f' = index_len f /\
    (sc ≠ SMA_name win -> columns f' !! SMA_name win = Some (rolling_mean win p)) /\
    (sc ≠ EMA_name win -> columns f' !! EMA_name win = Some (ewm_mean win p)) /\
    (forall c, c ≠ SMA_name win -> c ≠ EMA_name win -> c ≠ "position" -> c ≠ sc ->
       columns f' !! c = columns f !! c) /\
    (well_formed f -> well_formed f').
Proof.
  intros Hf Hp Lp Hw N1 N2 N3.
  eexists _, _. split; [by apply run_trend_following|]. cbn [frames].
  split; [rewrite length_app; cbn; lia|].
  split; [apply lookup_top|].
  split; [intros l g Hl; by apply lookup_app_l_Some|]. split; [done|].
  unfold tf_frame.
  split.
  { intros Hs. rewrite lookup_set_column_ne by done.
    rewrite lookup_set_column_ne by (symmetry; apply SMA_position_ne).
    rewrite lookup_set_column_ne by (symmetry; apply SMA_EMA_ne).
    apply lookup_set_column. }
  split.
  { intros Hs. rewrite lookup_set_column_ne by done.
    rewrite lookup_set_column_ne by (symmetry; apply EMA_position_ne).
    apply lookup_set_column. }
  split.
  { intros c H1 H2 H3 H4. by rewrite !lookup_set_column_ne. }
  intros Hwf c s Hc. cbn [index_len set_column]. rewrite <- Lp.
  destruct (decide (c = sc)) as [-> | H4].
  { rewrite lookup_set_column in Hc. injection Hc as <-.
    apply strategy_returns_length. }
  rewrite lookup_set_column_ne in Hc by done.
  destruct (decide (c = "position")) as [-> | H3].
  { rewrite lookup_set_column in Hc. injection Hc as <-.
    by rewrite shift1_length, length_fmap, raw_signal_length. }
  rewrite lookup_set_column_ne in Hc by done.
  destruct (decide (c = EMA_name win)) as [-> | H2].
  { rewrite lookup_set_column in Hc. injection Hc as <-. apply ewm_mean_length. }
  rewrite lookup_set_column_ne in Hc by done.
  destruct (decide (c = SMA_name win)) as [-> | H1].
  { rewrite lookup_set_column in Hc. injection Hc as <-. apply rolling_mean_length. }
  rewrite lookup_set_column_ne in Hc by done. rewrite Lp. by eapply Hwf.
Qed.

Lemma trend_following_columns_witness :
  let w := world_of_returns [10; 11; 9]%Z up_down_up in
  let f := frame_of_returns [10; 11; 9]%Z up_down_up in
  let p := of_Z <$> [10; 11; 9]%Z in
  exists w' f',
    trend_following 0 "close" "out" 2 w = Ok (length (frames w), w') /\
    length (frames w') = S (length (frames w)) /\
    frames w' !! length (frames w) = Some f' /\
    (forall l g, frames w !! l = Some g -> frames w' !! l = Some g) /\
    index_len f' = index_len f /\
    ("out" ≠ SMA_name 2 -> columns f' !! SMA_name 2 = Some (rolling_mean 2 p)) /\
    ("out" ≠ EMA_name 2 -> columns f' !! EMA_name 2 = Some (ewm_mean 2 p)) /\
    (forall c, c ≠ SMA_name 2 -> c ≠ EMA_name 2 -> c ≠ "position" -> c ≠ "out" ->
       columns f' !! c = columns f !! c) /\
    (well_formed f -> well_formed f').
Proof.
  apply (trend_following_columns (world_of_returns [10; 11; 9]%Z up_down_up) 0
           (frame_of_returns [10; 11; 9]%Z up_down_up) (of_Z <$> [10; 11; 9]%Z)
           "close" "out" 2).
  - reflexivity.
  - reflexivity.
  - reflexivity.
  - lia.
  - discriminate.
  - discriminate.
  - discriminate.
Defined.

(** ** What [return_metrics] does to the frame it is given *)

Lemma cumulative_names_ne sc : "cumulative_" +:+ sc ≠ "cumulative_return_" +:+ sc.
Proof.
  intros E. apply (f_equal String.length) in E.
  rewrite !string_length_app in E. cbn in E. lia.
Qed.

(** X4.  [return_metrics] works in place: it makes no copy, so afterwards
    the caller's frame holds the three columns [cumulative_<s>],
    [cumulative_return_<s>] and [drawdown]; every other column of that
    frame, every other frame and the global [position] are as before. *)
Theorem return_metrics_in_place fsqrt fpow w df f pc sc r p :
  frames w !! df = Some f ->
  columns f !! sc = Some r ->
  columns f !! pc = Some p ->
  pc ≠ "cumulative_" +:+ sc ->
  length r = index_len f ->
  r ≠ [] ->
  exists v w' f',
    return_metrics fsqrt fpow df pc sc "daily" w = Ok (v, w') /\
    position w' = position w /\
    length (frames w') = length (frames w) /\
    (forall l, l ≠ df -> frames w' !! l = frames w !! l) /\
    frames w' !! df = Some f' /\
    index_len f' = index_len f /\
    columns f' !! ("cumulative_" +:+ sc) = Some (cumulative_returns r) /\
    columns f' !! ("cumulative_return_" +:+ sc) = Some (cumulative_returns r) /\
    columns f' !! "drawdown" = Some (drawdown_curve (cumulative_returns r)) /\
    (forall c, c ≠ "cumulative_" +:+ sc -> c ≠ "cumulative_return_" +:+ sc ->
       c ≠ "drawdown" -> columns f' !! c = columns f !! c).
Proof.
  intros Hf Hr Hp Npc Lr Hne.
  destruct (last_is_Some (cumulative_returns r)) as [x Hx].
  { intros E. apply (f_equal length) in E.
    rewrite cumulative_returns_length in E. by destruct r. }
  assert (index_len f ≠ 0%nat) as HT by (rewrite <- Lr; by destruct r).
  pose proof (lookup_lt_Some _ _ _ Hf) as Hlt.
  eexists _, _, _. split; [by eapply run_return_metrics|]. cbn [position frames].
  split; [done|]. split; [apply length_insert|].
  split; [intros l Hl; by apply list_lookup_insert_ne|].
  split; [by apply list_lookup_insert_eq|].
  split; [done|].
  unfold rm_frame, md_frame.
  split.
  { rewrite lookup_set_column_ne by discriminate.
    rewrite lookup_set_column_ne by (symmetry; apply cumulative_names_ne).
    apply lookup_set_column. }
  split.
  { rewrite lookup_set_column_ne by discriminate. apply lookup_set_column. }
  split; [apply lookup_set_column|].
  intros c H1 H2 H3. by rewrite !lookup_set_column_ne.
Qed.

Lemma return_metrics_in_place_witness :
  let w := world_of_returns [10; 11; 9]%Z up_down_up in
  let f := frame_of_returns [10; 11; 9]%Z up_down_up in
  let r := Fin <$> up_down_up in
  exists v w' f',
    return_metrics fsqrt_model fpow_model 0 "close" "strat" "daily" w = Ok (v, w') /\
    position w' = position w /\
    length (frames w') = length (frames w) /\
    (forall l, l ≠ 0%nat -> frames w' !! l = frames w !! l) /\
    frames w' !! 0%nat = Some f' /\
    index_len f' = index_len f /\
    columns f' !! ("cumulative_" +:+ "strat") = Some (cumulative_returns r) /\
    columns f' !! ("cumulative_return_" +:+ "strat") = Some (cumulative_returns r) /\
    columns f' !! "drawdown" = Some (drawdown_curve (cumulative_returns r)) /\
    (forall c, c ≠ "cumulative_" +:+ "strat" -> c ≠ "cumulative_return_" +:+ "strat" ->
       c ≠ "drawdown" -> columns f' !! c = columns f !! c).
Proof.
  apply (return_metrics_in_place fsqrt_model fpow_model
           (world_of_returns [10; 11; 9]%Z up_down_up) 0
           (frame_of_returns [10; 11; 9]%Z up_down_up) "close" "strat"
           (Fin <$> up_down_up) (of_Z <$> [10; 11; 9]%Z)).
  - reflexivity.
  - reflexivity.
  - reflexivity.
  - discriminate.
  - reflexivity.
  - discriminate.
Defined.

(** ** The sampling frequency *)

Lemma periods_five_minutes : periods_per_year "5-minute" = ret (of_Z 105120).
Proof.
  unfold periods_per_year.
  rewrite decide_False by discriminate. rewrite decide_False by discriminate.
  rewrite decide_True by done. reflexivity.
Qed.

Lemma of_Z_ne_0 z : z ≠ 0%Z -> Q2Qc (inject_Z z) ≠ 0.
Proof. intros Hz E. qc_to_q. unfold Qeq in E. cbn in E. lia. Qed.

Lemma run_return_metrics_periods fsqrt fpow w df f pc sc frequency h r p x :
  periods_per_year frequency = ret (of_Z h) ->
  h ≠ 0%Z ->
  frames w !! df = Some f ->
  columns f !! sc = Some r ->
  columns f !! pc = Some p ->
  pc ≠ "cumulative_" +:+ sc ->
  index_len f ≠ 0%nat ->
  last (cumulative_returns r) = Some x ->
  return_metrics fsqrt fpow df pc sc frequency w
  = Ok ((x,
         fsub (fpow (fdiv (fmul (of_Z 100) (fadd f1 x)) (of_Z 100))
                    (fdiv f1 (fdiv (of_nat (index_len f)) (of_Z h)))) f1,
         fmul (sstd fsqrt p) (fsqrt (of_Z h)),
         fdiv (fsub (fpow (fdiv (fmul (of_Z 100) (fadd f1 x)) (of_Z 100))
                          (fdiv f1 (fdiv (of_nat (index_len f)) (of_Z h)))) f1)
              (fmul (sstd fsqrt p) (fsqrt (of_Z h))),
         max_dd_of r),
        mkWorld (position w) (<[df := rm_frame f sc r]> (frames w))).
Proof.
  intros Hh Hh0 Hf Hr Hp Npc HT Hx. destruct w as [pos hp]. cbn [frames position] in *.
  pose proof (lookup_lt_Some _ _ _ Hf) as Hlt.
  assert (forall g, (<[df := g]> hp) !! df = Some g) as Hin
    by (intros; by apply list_lookup_insert_eq).
  assert (fdiv (of_nat (index_len f)) (of_Z h) ≠ f0) as Hny.
  { unfold of_nat, of_Z. rewrite fdiv_Fin by (by apply of_Z_ne_0).
    intros E. apply Fin_inj in E. revert E.
    apply Qc_div_ne_0; [by apply Qc_of_nat_ne_0 | by apply of_Z_ne_0]. }
  unfold return_metrics.
  erewrite run_bind; [| by eapply run_getcol].
  erewrite run_bind; [| by eapply run_setcol]. cbn [frames position].
  fold (cumulative_returns r).
  set (g1 := set_column _ (cumulative_returns r) f).
  erewrite run_bind; cycle 1.
  { unfold len. erewrite run_bind; [| unfold get_frame; cbn; by rewrite Hin].
    reflexivity. }
  cbn [index_len g1 set_column].
  rewrite Hh. erewrite run_bind; [| reflexivity].
  erewrite run_bind; cycle 1.
  { unfold pydiv. rewrite decide_False; [reflexivity|].
    intros E. apply Fin_inj in E. by apply of_Z_ne_0 in E. }
  erewrite run_bind; [| eapply run_getcol; [apply Hin | apply lookup_set_column]].
  erewrite run_bind; [| unfold iloc_last; rewrite Hx; reflexivity].
  erewrite run_bind; [| eapply run_getcol; [apply Hin | apply lookup_set_column]].
  erewrite run_bind; [| unfold iloc_last; rewrite Hx; reflexivity].
  erewrite run_bind; cycle 1.
  { unfold pydiv. rewrite decide_False by done. reflexivity. }
  erewrite run_bind; cycle 1.
  { eapply run_getcol; [apply Hin|]. unfold g1.
    rewrite lookup_set_column_ne by done. exact Hp. }
  erewrite run_bind; cycle 1.
  { eapply run_max_drawdown; [apply Hin|]. unfold g1.
    rewrite lookup_set_column_ne by apply cumulative_ne. exact Hr. }
  cbn [frames position]. rewrite list_insert_insert_eq.
  reflexivity.
Qed.

Lemma run_return_metrics_unbound fsqrt fpow w df f pc sc frequency r :
  frames w !! df = Some f ->
  columns f !! sc = Some r ->
  frequency ≠ "daily" -> frequency ≠ "hourly" -> frequency ≠ "5-minute" ->
  return_metrics fsqrt fpow df pc sc frequency w = Raise UnboundLocalError.
Proof.
  intros Hf Hr N1 N2 N3. destruct w as [pos hp]. cbn [frames position] in *.
  pose proof (lookup_lt_Some _ _ _ Hf) as Hlt.
  unfold return_metrics.
  erewrite run_bind; [| by eapply run_getcol].
  erewrite run_bind; [| by eapply run_setcol]. cbn [frames position].
  erewrite run_bind; cycle 1.
  { unfold len. erewrite run_bind;
      [| unfold get_frame; cbn; by rewrite list_lookup_insert_eq].
    reflexivity. }
  erewrite run_bind_raise; [done|].
  unfold periods_per_year. by rewrite !decide_False.
Qed.

(** X5.  [return_metrics] annualises with 365 periods a year for ["daily"],
    8760 for ["hourly"] and 105120 for ["5-minute"]: the CAGR exponent is
    [1 / (T / h)] and the volatility is the standard deviation of the price
    column times [sqrt h].  Any other frequency raises UnboundLocalError,
    whatever the frame holds. *)
Theorem return_metrics_frequency fsqrt fpow w df f pc sc r p frequency :
  frames w !! df = Some f ->
  columns f !! sc = Some r ->
  columns f !! pc = Some p ->
  pc ≠ "cumulative_" +:+ sc ->
  length r = index_len f ->
  r ≠ [] ->
  (frequency ≠ "daily" -> frequency ≠ "hourly" -> frequency ≠ "5-minute" ->
   return_metrics fsqrt fpow df pc sc frequency w = Raise UnboundLocalError) /\
  (forall h,
     frequency = "daily" /\ h = 365%Z \/
     frequency = "hourly" /\ h = 8760%Z \/
     frequency = "5-minute" /\ h = 105120%Z ->
     exists w' total cagr vol sharpe mdd,
       return_metrics fsqrt fpow df pc sc frequency w
       = Ok ((total, cagr, vol, sharpe, mdd), w') /\
       last (cumulative_returns r) = Some total /\
       cagr = fsub (fpow (fdiv (fmul (of_Z 100) (fadd f1 total)) (of_Z 100))
                         (fdiv f1 (fdiv (of_nat (length r)) (of_Z h)))) f1 /\
       vol = fmul (sstd fsqrt p) (fsqrt (of_Z h)) /\
       sharpe = fdiv cagr vol).
Proof.
  intros Hf Hr Hp Npc Lr Hne. split.
  - intros N1 N2 N3. by eapply run_return_metrics_unbound.
  - intros h Hh.
    destruct (last_is_Some (cumulative_returns r)) as [x Hx].
    { intros E. apply (f_equal length) in E.
      rewrite cumulative_returns_length in E. by destruct r. }
    assert (index_len f ≠ 0%nat) as HT by (rewrite <- Lr; by destruct r).
    assert (periods_per_year frequency = ret (of_Z h) /\ h ≠ 0%Z) as [Hper Hh0].
    { destruct Hh as [[-> ->] | [[-> ->] | [-> ->]]]; split; try done;
        apply periods_five_minutes. }
    eexists _, x, _, _, _, _.
    split; [by eapply run_return_metrics_periods|].
    rewrite Lr. by repeat split.
Qed.

Lemma return_metrics_frequency_witness :
  let w := world_of_returns [10; 11; 9]%Z up_down_up in
  let r := Fin <$> up_down_up in
  let p := of_Z <$> [10; 11; 9]%Z in
  return_metrics fsqrt_model fpow_model 0 "close" "strat" "weekly" w
  = Raise UnboundLocalError /\
  exists w' total cagr vol sharpe mdd,
    return_metrics fsqrt_model fpow_model 0 "close" "strat" "hourly" w
    = Ok ((total, cagr, vol, sharpe, mdd), w') /\
    last (cumulative_returns r) = Some total /\
    cagr = fsub (fpow_model (fdiv (fmul (of_Z 100) (fadd f1 total)) (of_Z 100))
                            (fdiv f1 (fdiv (of_nat (length r)) (of_Z 8760)))) f1 /\
    vol = fmul (sstd fsqrt_model p) (fsqrt_model (of_Z 8760)) /\
    sharpe = fdiv cagr vol.
Proof.
  split.
  - refine (proj1 (return_metrics_frequency fsqrt_model fpow_model
                     (world_of_returns [10; 11; 9]%Z up_down_up) 0
                     (frame_of_returns [10; 11; 9]%Z up_down_up) "close" "strat"
                     (Fin <$> up_down_up) (of_Z <$> [10; 11; 9]%Z) "weekly"
                     _ _ _ _ _ _) _ _ _);
      first [reflexivity | discriminate].
  - refine (proj2 (return_metrics_frequency fsqrt_model fpow_model
                     (world_of_returns [10; 11; 9]%Z up_down_up) 0
                     (frame_of_returns [10; 11; 9]%Z up_down_up) "close" "strat"
                     (Fin <$> up_down_up) (of_Z <$> [10; 11; 9]%Z) "hourly"
                     _ _ _ _ _ _) 8760%Z _);
      first [reflexivity | discriminate | by right; left].
Defined.

(** ** How deep a drawdown can be *)




(** ** The missing first return *)

Lemma cumulative_returns_nan_head r :
  cumulative_returns (NaN :: r) = NaN :: cumulative_returns r.
Proof. reflexivity. Qed.

Lemma drawdown_curve_nan_head c : drawdown_curve (NaN :: c) = NaN :: drawdown_curve c.
Proof. reflexivity. Qed.

Lemma smax_nan_head d : smax (NaN :: d) = smax d.
Proof. unfold smax, dropna. by rewrite filter_cons_False by done. Qed.

Lemma max_dd_of_nan_head r : max_dd_of (NaN :: r) = max_dd_of r.
Proof.
  unfold max_dd_of.
  by rewrite cumulative_returns_nan_head, drawdown_curve_nan_head, smax_nan_head.
Qed.

(** X7.  The strategy column [trend_following] builds starts with NaN.
    [max_drawdown] passes over such a row: it stores NaN there in both
    curves, and returns what it returns for the column without that row. *)
Theorem max_drawdown_skips_first_row wa wb da db fa fb sc r :
  frames wa !! da = Some fa ->
  frames wb !! db = Some fb ->
  columns fa !! sc = Some (NaN :: r) ->
  columns fb !! sc = Some r ->
  exists mdd wa' wb' ga gb,
    max_drawdown da sc wa = Ok (mdd, wa') /\
    max_drawdown db sc wb = Ok (mdd, wb') /\
    frames wa' !! da = Some ga /\
    frames wb' !! db = Some gb /\
    columns ga !! ("cumulative_return_" +:+ sc) = Some (NaN :: cumulative_returns r) /\
    columns gb !! ("cumulative_return_" +:+ sc) = Some (cumulative_returns r) /\
    columns ga !! "drawdown" = Some (NaN :: drawdown_curve (cumulative_returns r)) /\
    columns gb !! "drawdown" = Some (drawdown_curve (cumulative_returns r)).
Proof.
  intros Hfa Hfb Hra Hrb.
  pose proof (lookup_lt_Some _ _ _ Hfa) as Hla.
  pose proof (lookup_lt_Some _ _ _ Hfb) as Hlb.
  exists (max_dd_of r). eexists _, _, _, _.
  split.
  { rewrite (run_max_drawdown wa da fa sc (NaN :: r)) by done.
    fold (max_dd_of (NaN :: r)). by rewrite max_dd_of_nan_head. }
  split; [by apply run_max_drawdown|]. cbn [frames].
  split; [by apply list_lookup_insert_eq|].
  split; [by apply list_lookup_insert_eq|].
  unfold md_frame.
  split; [by rewrite lookup_set_column_ne, lookup_set_column by discriminate|].
  split; [by rewrite lookup_set_column_ne, lookup_set_column by discriminate|].
  split; apply lookup_set_column.
Qed.

Lemma max_drawdown_skips_first_row_witness :
  let wa := mkWorld 0 [mkFrame 4 {["strat" := NaN :: (Fin <$> up_down_up)]}] in
  let wb := world_of_returns [10; 11; 9]%Z up_down_up in
  let r := Fin <$> up_down_up in
  exists mdd wa' wb' ga gb,
    max_drawdown 0 "strat" wa = Ok (mdd, wa') /\
    max_drawdown 0 "strat" wb = Ok (mdd, wb') /\
    frames wa' !! 0%nat = Some ga /\
    frames wb' !! 0%nat = Some gb /\
    columns ga !! ("cumulative_return_" +:+ "strat")
    = Some (NaN :: cumulative_returns r) /\
    columns gb !! ("cumulative_return_" +:+ "strat") = Some (cumulative_returns r) /\
    columns ga !! "drawdown" = Some (NaN :: drawdown_curve (cumulative_returns r)) /\
    columns gb !! "drawdown" = Some (drawdown_curve (cumulative_returns r)).
Proof.
  apply (max_drawdown_skips_first_row
           (mkWorld 0 [mkFrame 4 {["strat" := NaN :: (Fin <$> up_down_up)]}])
           (world_of_returns [10; 11; 9]%Z up_down_up) 0 0
           (mkFrame 4 {["strat" := NaN :: (Fin <$> up_down_up)]})
           (frame_of_returns [10; 11; 9]%Z up_down_up) "strat" (Fin <$> up_down_up)).
  - reflexivity.
  - reflexivity.
  - reflexivity.
  - reflexivity.
Defined.

(** ** Positive prices *)






(** ** A candidate that fails *)

Lemma foldM_app_raise {A B} (g : A -> B -> M A) a l1 b l2 w a' w' e :
  foldM g a l1 w = Ok (a', w') ->
  g a' b w' = Raise e ->
  foldM g a (l1 ++ b :: l2) w = Raise e.
Proof.
  revert a w. induction l1 as [|x l1 IH]; intros a w Hrun Hfail.
  - cbn in Hrun. injection Hrun as -> ->. cbn [app foldM].
    by erewrite run_bind_raise.
  - cbn [app foldM] in *. unfold mbind, M_bind, bind in *.
    destruct (g a x w) as [[a1 w1]|e1]; [|done]. by apply IH.
Qed.

(** X9.  One failing candidate ends the whole search, whatever the
    candidates before it scored: a window of 0 anywhere in the range makes
    [grid_search] raise ValueError, and a frame without the price column
    makes it raise KeyError at the first candidate. *)
Theorem grid_search_aborts fsqrt fpow w d f pc sc p before after :
  frames w !! d = Some f ->
  searchable f pc sc p before ->
  grid_search fsqrt fpow d pc sc (before ++ 0%nat :: after) w = Raise ValueError /\
  (forall g win wg,
     frames wg !! d = Some g -> columns g !! pc = None ->
     grid_search fsqrt fpow d pc sc (win :: after) wg = Raise KeyError).
Proof.
  intros Hf Hs. split.
  - destruct w as [pos h]. cbn [frames] in Hf.
    destruct (run_grid_loop fsqrt fpow d f pc sc p before Hs (mkSearch None NInf [])
                pos h Hf) as (pos' & gs & Hrun).
    unfold grid_search, grid_loop. erewrite run_bind_raise; [done|].
    eapply foldM_app_raise; [exact Hrun|].
    unfold grid_step. erewrite run_bind_raise; [done|].
    eapply run_trend_following_zero; [by apply lookup_app_l_Some|].
    destruct Hs as (Hp & _). by eexists.
  - intros g win wg Hg Hp.
    unfold grid_search, grid_loop. erewrite run_bind_raise; [done|].
    cbn [foldM]. erewrite run_bind_raise; [done|].
    unfold grid_step. erewrite run_bind_raise; [done|].
    by eapply run_trend_following_missing.
Qed.

Lemma grid_search_aborts_witness :
  grid_search fsqrt_model fpow_model 0 "close" "strat" ([1; 2]%nat ++ 0%nat :: [3]%nat)
    (world_of_prices rising_prices) = Raise ValueError /\
  grid_search fsqrt_model fpow_model 0 "close" "strat" (5%nat :: [3]%nat)
    (mkWorld 0 [mkFrame 0 ∅]) = Raise KeyError.
Proof.
  split.
  - refine (proj1 (grid_search_aborts fsqrt_model fpow_model
                     (world_of_prices rising_prices) 0
                     (frame_of_prices rising_prices) "close" "strat"
                     (of_Z <$> rising_prices) [1; 2]%nat [3]%nat _ _)).
    + reflexivity.
    + apply rising_searchable. repeat constructor.
  - refine (proj2 (grid_search_aborts fsqrt_model fpow_model
                     (world_of_prices rising_prices) 0
                     (frame_of_prices rising_prices) "close" "strat"
                     (of_Z <$> rising_prices) [1; 2]%nat [3]%nat _ _)
                  (mkFrame 0 ∅) 5%nat (mkWorld 0 [mkFrame 0 ∅]) _ _).
    + reflexivity.
    + apply rising_searchable. repeat constructor.
    + reflexivity.
    + reflexivity.
Defined.

(** ** A window longer than the data *)

Lemma rolling_mean_short w p :
  (length p < w)%nat -> rolling_mean w p = replicate (length p) NaN.
Proof.
  intros Hw. apply list_eq. intros t. unfold rolling_mean.
  rewrite list_lookup_imap.
  destruct (p !! t) as [x|] eqn:Hx; cbn.
  - apply lookup_lt_Some in Hx as Ht.
    rewrite decide_True by lia. by rewrite lookup_replicate_2.
  - apply lookup_ge_None in Hx. symmetry. apply lookup_ge_None.
    by rewrite length_replicate.
Qed.

Lemma signals_without_sma p e :
  length e = length p ->
  signals 0 p (replicate (length p) NaN) e = replicate (length p) 0%Z.
Proof.
  revert e. induction p as [|x p IH]; intros [|u e] Hlen; try done.
  cbn [length replicate signals].
  assert (next_position 0 x NaN u = 0%Z) as ->.
  { unfold next_position, fgt. by rewrite flt_nan_l. }
  f_equal. apply IH. cbn in Hlen. lia.
Qed.

Lemma raw_signal_short w p :
  (length p < w)%nat -> raw_signal w p = replicate (length p) 0%Z.
Proof.
  intros Hw. unfold raw_signal. rewrite rolling_mean_short by done.
  apply signals_without_sma, ewm_mean_length.
Qed.

(** A strategy that is never long, over finite prices other than 0. *)
Lemma idle_strategy_returns w q qs :
  raw_signal w (Fin <$> q :: qs) = replicate (S (length qs)) 0%Z ->
  Forall (fun x => x ≠ 0) (q :: qs) ->
  strategy_returns w (Fin <$> q :: qs) = NaN :: replicate (length qs) f0.
Proof.
  intros Hsig Hnz. apply list_eq. intros t.
  assert (length (of_Z <$> raw_signal w (Fin <$> q :: qs)) = S (length qs)) as Lsig
    by (by rewrite Hsig, length_fmap, length_replicate).
  destruct t as [|t].
  - unfold strategy_returns.
    erewrite smul_lookup; cycle 1;
      [apply pct_change_lookup_0; cbn; lia | apply shift1_lookup_0; lia | reflexivity].
  - destruct (decide (t < length qs)%nat) as [Ht|Ht].
    + destruct (lookup_lt_is_Some_2 (q :: qs) (S t)) as [x Hx]; [cbn; lia|].
      destruct (lookup_lt_is_Some_2 (q :: qs) t) as [y Hy]; [cbn; lia|].
      assert (y ≠ 0) as Hy0 by (by eapply Forall_lookup_1 in Hnz).
      unfold strategy_returns.
      erewrite smul_lookup; cycle 1.
      * apply (pct_change_lookup_S (Fin <$> q :: qs) t (Fin x) (Fin y));
          rewrite list_lookup_fmap; [by rewrite Hx | by rewrite Hy].
      * rewrite shift1_lookup_S by lia.
        rewrite Hsig, list_lookup_fmap, lookup_replicate_2 by lia. reflexivity.
      * rewrite fdiv_Fin by done. unfold of_Z. cbn [fsub fneg fadd fmul].
        change (Q2Qc (inject_Z 0)) with 0.
        replace ((x / y + - 1) * 0) with (0 : Qc) by ring.
        symmetry. by apply (lookup_replicate_2 (length qs) f0 t).
    + transitivity (@None float).
      * apply lookup_ge_None. rewrite strategy_returns_length, length_fmap. cbn. lia.
      * symmetry. apply lookup_ge_None. cbn. rewrite length_replicate. lia.
Qed.

Lemma drawdown_curve_zero k :
  drawdown_curve (NaN :: replicate k f0) = NaN :: replicate k f0.
Proof.
  rewrite drawdown_curve_nan_head. f_equal.
  unfold drawdown_curve, sdiv, cummax.
  assert (forall a, fmax a f0 = f0 -> cummax_from a (replicate k f0) = replicate k f0)
    as Hmax.
  { induction k as [|k IH]; intros a Ha; [done|]. cbn [replicate cummax_from is_nan].
    rewrite Ha. f_equal. by apply IH. }
  rewrite Hmax by done.
  rewrite !fmap_replicate, zip_with_replicate, fmap_replicate.
  f_equal.
Qed.

Lemma smax_zero k : smax (NaN :: replicate (S k) f0) = f0.
Proof.
  rewrite smax_nan_head. unfold smax, dropna.
  cbn [replicate]. rewrite filter_cons_True by done.
  assert (filter (fun x => is_nan x = false) (replicate k f0) = replicate k f0) as ->.
  { induction k as [|k IH]; [done|]. cbn [replicate].
    rewrite filter_cons_True by done. by rewrite IH. }
  induction k as [|k IH]; [done|]. cbn. exact IH.
Qed.

Lemma fdiv_zero_l v : fdiv f0 v = f0 \/ fdiv f0 v = NaN.
Proof.
  destruct v as [| | |b]; cbn; auto.
  destruct (decide (b = 0)); [by right|]. left. f_equal. unfold Qcdiv. ring.
Qed.

Section Idle.
Variable fsqrt : float -> float.
Variable fpow : float -> float -> float.
Hypothesis fpow_one : forall y, fpow f1 y = f1.

(** Without a trade the objective is NaN, whatever the prices are. *)
Lemma idle_objective_nan T k p :
  objective_daily fsqrt fpow T (NaN :: replicate k f0) p = NaN.
Proof.
  unfold objective_daily, max_dd_of.
  rewrite cumulative_returns_zero, drawdown_curve_zero.
  destruct k as [|k].
  - change (smax [NaN]) with NaN. apply fdiv_nan_r.
  - rewrite smax_zero, last_cons, last_replicate_S.
    change (default NaN (Some f0)) with f0.
    unfold sharpe_daily, cagr_daily.
    replace (fdiv (fmul (of_Z 100) (fadd f1 f0)) (of_Z 100)) with f1
      by (symmetry; float_compute).
    rewrite fpow_one.
    change (fsub f1 f1) with (Fin (1 + - 1)).
    replace (Fin (1 + - 1)) with f0 by (f_equal; ring).
    by destruct (fdiv_zero_l (vol_daily fsqrt p)) as [-> | ->].
Qed.

(** X10.  A window longer than the data never gets an SMA, so the
    strategy never enters; over finite prices other than 0 its objective
    is NaN and [grid_search] never returns it. *)
Theorem grid_search_skips_long_windows w d f pc sc qs window_range win :
  frames w !! d = Some f ->
  searchable f pc sc (Fin <$> qs) window_range ->
  Forall (fun x => x ≠ 0) qs ->
  win ∈ window_range ->
  (length qs < win)%nat ->
  raw_signal win (Fin <$> qs) = replicate (length qs) 0%Z /\
  window_objective fsqrt fpow (index_len f) (Fin <$> qs) win = NaN /\
  exists best w',
    grid_search fsqrt fpow d pc sc window_range w = Ok (best, w') /\
    best ≠ Some win.
Proof.
  intros Hf Hs Hnz Hin Hlen.
  assert (raw_signal win (Fin <$> qs) = replicate (length qs) 0%Z) as Hsig.
  { rewrite raw_signal_short; by rewrite length_fmap. }
  assert (window_objective fsqrt fpow (index_len f) (Fin <$> qs) win = NaN) as Hobj.
  { unfold window_objective. destruct qs as [|q qs].
    - destruct Hs as (_ & _ & Hne & _). done.
    - rewrite idle_strategy_returns by done. apply idle_objective_nan. }
  split; [done|]. split; [done|].
  destruct (run_grid_search fsqrt fpow w d f pc sc _ window_range Hf Hs)
    as (pos' & gs & _ & Hsearch).
  destruct (selected_search (window_objective fsqrt fpow (index_len f) (Fin <$> qs))
              window_range) as [_ Hsel].
  eexists _, _. split; [exact Hsearch|].
  intros E. rewrite E in Hsel. destruct Hsel as (_ & Hbest & _).
  by rewrite Hobj in Hbest.
Qed.
End Idle.

Lemma grid_search_skips_long_windows_witness :
  raw_signal 10 (Fin <$> rising_rationals)
  = replicate (length rising_rationals) 0%Z /\
  window_objective fsqrt_model fpow_model
    (index_len (frame_of_prices rising_prices)) (Fin <$> rising_rationals) 10 = NaN /\
  exists best w',
    grid_search fsqrt_model fpow_model 0 "close" "strat" [2; 10]%nat
      (world_of_prices rising_prices) = Ok (best, w') /\
    best ≠ Some 10%nat.
Proof.
  apply (grid_search_skips_long_windows fsqrt_model fpow_model fpow_model_one
           (world_of_prices rising_prices) 0 (frame_of_prices rising_prices)
           "close" "strat" rising_rationals [2; 10]%nat 10).
  - reflexivity.
  - apply rising_searchable. repeat constructor; lia.
  - repeat constructor; discriminate.
  - apply list_elem_of_further, list_elem_of_here.
  - cbn. lia.
Defined.

(** * Properties of the downloader *)

Lemma io_bind_returned {R F A B} (m : IO R F A) (k : A -> IO R F B) env a env' :
  m env = (Returned a, env') -> (m ≫= k) env = k a env'.
Proof. intros H. unfold mbind, IO_bind. by rewrite H. Qed.

Lemma io_bind_raised {R F A B} (m : IO R F A) (k : A -> IO R F B) env e env' :
  m env = (Raised e, env') -> (m ≫= k) env = (Raised e, env').
Proof. intros H. unfold mbind, IO_bind. by rewrite H. Qed.

Section DownloadRuns.
Variable date_of_ms : Z -> string.
Variables crypto_id vs_currency days interval : string.
Variable delay : Z.

Let req := chart_request crypto_id vs_currency days interval.

Lemma run_attempt_refused (env : Env chart_response PriceFrame) e :
  net env (length (sent env)) = Refused e ->
  download_attempt date_of_ms crypto_id vs_currency days interval env
  = (Returned None,
     mkEnv (net env) (sent env ++ [req]) (slept env) (files env)
           (stdout env ++ [error_line e])).
Proof.
  intros Hnet. unfold download_attempt.
  erewrite io_bind_returned; [| reflexivity]. by rewrite Hnet.
Qed.

(** The loop after a run of caught exceptions. *)
Lemma run_failures es :
  (0 <= delay)%Z ->
  forall n (env : Env chart_response PriceFrame),
    (forall i e, es !! i = Some e -> net env (length (sent env) + i) = Refused e) ->
    download_loop date_of_ms crypto_id vs_currency days interval delay
      (length es + n) env
    = download_loop date_of_ms crypto_id vs_currency days interval delay n
        (after_failures env req delay es).
Proof.
  intros Hdelay. induction es as [|e es IH]; intros n env Hnet.
  - destruct env. unfold after_failures. cbn. by rewrite !app_nil_r.
  - cbn [length Nat.add download_loop].
    erewrite io_bind_returned; cycle 1.
    { apply (run_attempt_refused env e). rewrite <- (Hnet 0%nat e eq_refl).
      f_equal. lia. }
    cbv beta iota.
    erewrite io_bind_returned; [| reflexivity].
    erewrite io_bind_returned;
      [| unfold sleep; rewrite decide_False by lia; reflexivity].
    cbn [net sent slept files stdout].
    rewrite IH.
    + unfold after_failures. cbn [net sent slept files stdout length replicate bind].
      f_equal. f_equal; rewrite <- ?app_assoc; try done.
    + intros i e' He'. cbn [net sent]. rewrite length_app. cbn [length].
      rewrite <- (Hnet (S i) e' He'). f_equal. lia.
Qed.
End DownloadRuns.

(** ** What [download_crypto_data] does with the answers it gets *)

Section DownloadResults.
Variable date_of_ms : Z -> string.

Lemma after_failures_next_request (env : Env chart_response PriceFrame) req delay es :
  net (after_failures env req delay es) (length (sent (after_failures env req delay es)))
  = net env (length (sent env) + length es).
Proof. cbn. by rewrite length_app, length_replicate. Qed.

(** X11.  When the first [k] requests raise exceptions of [requests] and
    the next one is answered, with [k] below [retries], the function
    returns the frame of that answer: after [k + 1] requests, all to the
    market-chart URL of the currency, and [k] sleeps of [delay] seconds,
    with the frame saved as [<crypto_id>.csv] and every other file as it
    was. *)
Theorem download_succeeds_after_failures crypto_id vs_currency days interval
    retries delay (env : Env chart_response PriceFrame) es prices :
  (0 <= delay)%Z ->
  crypto_id ≠ "Timestamp" ->
  (forall i e, es !! i = Some e -> net env (length (sent env) + i) = Refused e) ->
  net env (length (sent env) + length es) = Chart (Some prices) ->
  (Z.of_nat (length es) < retries)%Z ->
  let req := chart_request crypto_id vs_currency days interval in
  let df := frame_of_chart date_of_ms crypto_id prices in
  exists env',
    download_crypto_data date_of_ms crypto_id vs_currency days interval retries delay env
    = (Returned (Some df), env') /\
    net env' = net env /\
    sent env' = sent env ++ replicate (S (length es)) req /\
    slept env' = slept env ++ replicate (length es) delay /\
    files env' = <[crypto_id +:+ ".csv" := df]> (files env) /\
    (forall path, path ≠ crypto_id +:+ ".csv" -> files env' !! path = files env !! path) /\
    stdout env'
    = stdout env ++ (es ≫= fun e => [error_line e; retry_line delay])
      ++ ["Data successfully saved to " +:+ crypto_id +:+ ".csv"].
Proof.
  intros Hdelay Hid Hfail Hok Hretries req df.
  unfold download_crypto_data.
  replace (Z.to_nat retries) with (length es + S (Z.to_nat retries - length es - 1))%nat
    by lia.
  rewrite (run_failures date_of_ms crypto_id vs_currency days interval delay es Hdelay)
    by done.
  fold req. cbn [download_loop]. unfold download_attempt.
  erewrite io_bind_returned; cycle 1.
  { erewrite io_bind_returned; [| reflexivity].
    fold (chart_request crypto_id vs_currency days interval). fold req.
    rewrite after_failures_next_request, Hok.
    rewrite decide_False by done. cbn zeta.
    erewrite io_bind_returned; [| reflexivity].
    erewrite io_bind_returned; [| reflexivity].
    reflexivity. }
  eexists. split; [reflexivity|]. cbn [net sent slept files stdout after_failures].
  split; [done|].
  split.
  { rewrite <- app_assoc. f_equal.
    change (S (length es)) with (1 + length es)%nat.
    rewrite Nat.add_comm, replicate_add. done. }
  split; [done|]. split; [done|].
  split; [intros path Hpath; by rewrite lookup_insert_ne|].
  by rewrite <- app_assoc.
Qed.

(** X12.  When each of the [retries] requests raises an exception of
    [requests], the function returns [None]: after [retries] requests and
    as many sleeps of [delay] seconds, one after the last failure too,
    with no file written.  With [retries <= 0] it returns [None] without
    a request. *)
Theorem download_gives_up crypto_id vs_currency days interval
    retries delay (env : Env chart_response PriceFrame) es :
  (0 <= delay)%Z ->
  (forall i e, es !! i = Some e -> net env (length (sent env) + i) = Refused e) ->
  length es = Z.to_nat retries ->
  let req := chart_request crypto_id vs_currency days interval in
  exists env',
    download_crypto_data date_of_ms crypto_id vs_currency days interval retries delay env
    = (Returned None, env') /\
    sent env' = sent env ++ replicate (Z.to_nat retries) req /\
    slept env' = slept env ++ replicate (Z.to_nat retries) delay /\
    files env' = files env /\
    stdout env'
    = stdout env ++ (es ≫= fun e => [error_line e; retry_line delay])
      ++ ["Failed to download data after several retries."].
Proof.
  intros Hdelay Hfail Hlen req.
  unfold download_crypto_data. rewrite <- Hlen.
  pose proof (run_failures date_of_ms crypto_id vs_currency days interval delay es
                Hdelay 0 env Hfail) as Hrun.
  rewrite Nat.add_0_r in Hrun. rewrite Hrun.
  eexists. split; [reflexivity|]. cbn [net sent slept files stdout after_failures].
  repeat split; try done. by rewrite <- app_assoc.
Qed.

End DownloadResults.

Lemma download_succeeds_after_failures_witness :
  let env : Env chart_response PriceFrame := fresh_env flaky_net in
  let es := [Timeout "timed out"; HTTPError "429 Too Many Requests";
             ConnectionError "connection reset"] in
  let prices := [(1699920000000, of_Z 36500); (1700000000000, of_Z 36600);
                 (1700006400000, of_Z 36700)]%Z in
  let req := chart_request "bitcoin" "usd" "max" "daily" in
  let df := frame_of_chart calendar_date "bitcoin" prices in
  exists env',
    download_crypto_data calendar_date "bitcoin" "usd" "max" "daily" 5 45 env
    = (Returned (Some df), env') /\
    net env' = net env /\
    sent env' = sent env ++ replicate (S (length es)) req /\
    slept env' = slept env ++ replicate (length es) 45%Z /\
    files env' = <["bitcoin" +:+ ".csv" := df]> (files env) /\
    (forall path, path ≠ "bitcoin" +:+ ".csv" -> files env' !! path = files env !! path) /\
    stdout env'
    = stdout env ++ (es ≫= fun e => [error_line e; retry_line 45])
      ++ ["Data successfully saved to " +:+ "bitcoin" +:+ ".csv"].
Proof.
  apply (download_succeeds_after_failures calendar_date
           "bitcoin" "usd" "max" "daily" 5 45 (fresh_env flaky_net)
           [Timeout "timed out"; HTTPError "429 Too Many Requests";
            ConnectionError "connection reset"]
           [(1699920000000, of_Z 36500); (1700000000000, of_Z 36600);
            (1700006400000, of_Z 36700)]%Z).
  - lia.
  - discriminate.
  - intros [|[|[|i]]] e He; simplify_eq/=; reflexivity.
  - reflexivity.
  - cbn. lia.
Defined.

Lemma download_gives_up_witness :
  let env : Env chart_response PriceFrame := fresh_env flaky_net in
  let es := [Timeout "timed out"; HTTPError "429 Too Many Requests";
             ConnectionError "connection reset"] in
  let req := chart_request "bitcoin" "usd" "max" "daily" in
  exists env',
    download_crypto_data calendar_date "bitcoin" "usd" "max" "daily" 3 45 env
    = (Returned None, env') /\
    sent env' = sent env ++ replicate (Z.to_nat 3) req /\
    slept env' = slept env ++ replicate (Z.to_nat 3) 45%Z /\
    files env' = files env /\
    stdout env'
    = stdout env ++ (es ≫= fun e => [error_line e; retry_line 45])
      ++ ["Failed to download data after several retries."].
Proof.
  apply (download_gives_up calendar_date
           "bitcoin" "usd" "max" "daily" 3 45 (fresh_env flaky_net)
           [Timeout "timed out"; HTTPError "429 Too Many Requests";
            ConnectionError "connection reset"]).
  - lia.
  - intros [|[|[|i]]] e He; simplify_eq/=; reflexivity.
  - reflexivity.
Defined.

(** ** What [download_crypto_data] does not catch *)

(** X13.  An answer without a ["prices"] entry is not retried: the
    KeyError of [data["prices"]] leaves the function, after the requests
    and sleeps of the failures before it, with no file written and nothing
    more printed. *)
Theorem download_propagates_key_error date_of_ms crypto_id vs_currency days interval
    retries delay (env : Env chart_response PriceFrame) es :
  (0 <= delay)%Z ->
  (forall i e, es !! i = Some e -> net env (length (sent env) + i) = Refused e) ->
  net env (length (sent env) + length es) = Chart None ->
  (Z.of_nat (length es) < retries)%Z ->
  let req := chart_request crypto_id vs_currency days interval in
  exists env',
    download_crypto_data date_of_ms crypto_id vs_currency days interval retries delay env
    = (Raised (PyError KeyError), env') /\
    sent env' = sent env ++ replicate (S (length es)) req /\
    slept env' = slept env ++ replicate (length es) delay /\
    files env' = files env /\
    stdout env' = stdout env ++ (es ≫= fun e => [error_line e; retry_line delay]).
Proof.
  intros Hdelay Hfail Hbad Hretries req.
  unfold download_crypto_data.
  replace (Z.to_nat retries) with (length es + S (Z.to_nat retries - length es - 1))%nat
    by lia.
  rewrite (run_failures date_of_ms crypto_id vs_currency days interval delay es Hdelay)
    by done.
  fold req. cbn [download_loop]. unfold download_attempt.
  erewrite io_bind_raised; cycle 1.
  { erewrite io_bind_returned; [| reflexivity].
    fold (chart_request crypto_id vs_currency days interval). fold req.
    rewrite after_failures_next_request, Hbad. reflexivity. }
  eexists. split; [reflexivity|]. cbn [net sent slept files stdout after_failures].
  split; [|done].
  rewrite <- app_assoc. f_equal.
  change (S (length es)) with (1 + length es)%nat.
  by rewrite Nat.add_comm, replicate_add.
Qed.

Lemma download_propagates_key_error_witness :
  let net := fun i : nat => match i with
                            | O => Refused (Timeout "timed out")
                            | _ => Chart None
                            end in
  let env : Env chart_response PriceFrame := fresh_env net in
  let es := [Timeout "timed out"] in
  let req := chart_request "bitcoin" "usd" "max" "daily" in
  exists env',
    download_crypto_data calendar_date "bitcoin" "usd" "max" "daily" 3 45 env
    = (Raised (PyError KeyError), env') /\
    sent env' = sent env ++ replicate (S (length es)) req /\
    slept env' = slept env ++ replicate (length es) 45%Z /\
    files env' = files env /\
    stdout env' = stdout env ++ (es ≫= fun e => [error_line e; retry_line 45]).
Proof.
  apply (download_propagates_key_error calendar_date "bitcoin" "usd" "max" "daily" 3 45
           (fresh_env (fun i : nat => match i with
                                     | O => Refused (Timeout "timed out")
                                     | _ => Chart None
                                     end))
           [Timeout "timed out"]).
  - lia.
  - intros [|i] e He; simplify_eq/=; reflexivity.
  - reflexivity.
  - cbn. lia.
Defined.

(** X14.  With a negative [delay] nothing is retried: after the first
    caught exception [time.sleep] raises ValueError, which leaves the
    function after one request. *)
Theorem download_negative_delay date_of_ms crypto_id vs_currency days interval
    retries delay (env : Env chart_response PriceFrame) e :
  (delay < 0)%Z ->
  (1 <= retries)%Z ->
  net env (length (sent env)) = Refused e ->
  exists env',
    download_crypto_data date_of_ms crypto_id vs_currency days interval retries delay env
    = (Raised (PyError ValueError), env') /\
    sent env' = sent env ++ [chart_request crypto_id vs_currency days interval] /\
    slept env' = slept env /\
    files env' = files env /\
    stdout env' = stdout env ++ [error_line e; retry_line delay].
Proof.
  intros Hdelay Hretries Hnet.
  unfold download_crypto_data.
  replace (Z.to_nat retries) with (S (Z.to_nat retries - 1)) by lia.
  cbn [download_loop].
  erewrite io_bind_returned;
    [| by apply (run_attempt_refused date_of_ms crypto_id vs_currency days interval
                   env e)].
  cbv beta iota.
  erewrite io_bind_returned; [| reflexivity].
  erewrite io_bind_raised; [| unfold sleep; rewrite decide_True by lia; reflexivity].
  eexists. split; [reflexivity|]. cbn [net sent slept files stdout].
  repeat split; try done. by rewrite <- app_assoc.
Qed.

Lemma download_negative_delay_witness :
  let env : Env chart_response PriceFrame := fresh_env flaky_net in
  exists env',
    download_crypto_data calendar_date "bitcoin" "usd" "max" "daily" 3 (-1) env
    = (Raised (PyError ValueError), env') /\
    sent env' = sent env ++ [chart_request "bitcoin" "usd" "max" "daily"] /\
    slept env' = slept env /\
    files env' = files env /\
    stdout env' = stdout env ++ [error_line (Timeout "timed out"); retry_line (-1)].
Proof.
  apply (download_negative_delay calendar_date "bitcoin" "usd" "max" "daily" 3 (-1)
           (fresh_env flaky_net) (Timeout "timed out")).
  - lia.
  - lia.
  - reflexivity.
Defined.

(** ** The frame of an answer *)

Lemma drop_duplicates_last_sublist rows :
  drop_duplicates_last rows `sublist_of` rows.
Proof.
  induction rows as [|row rest IH]; cbn; [done|].
  case_decide; by constructor.
Qed.

Lemma drop_duplicates_last_dates rows d :
  d ∈ (drop_duplicates_last rows).*1 <-> d ∈ rows.*1.
Proof.
  induction rows as [|row rest IH]; cbn; [done|].
  case_decide as Hin; cbn; rewrite ?elem_of_cons, IH; [|done].
  split; [by right|]. by intros [->|?].
Qed.

Lemma drop_duplicates_last_NoDup rows :
  NoDup (drop_duplicates_last rows).*1.
Proof.
  induction rows as [|row rest IH]; cbn; [constructor|].
  case_decide as Hin; cbn; [done|].
  constructor; [|done]. by rewrite drop_duplicates_last_dates.
Qed.

Lemma filter_date_nil (rows : list (string * float)) d :
  d ∉ rows.*1 -> filter (fun r => r.1 = d) rows = [].
Proof.
  intros Hd. induction rows as [|row rest IH]; [done|].
  cbn in Hd. rewrite not_elem_of_cons in Hd. destruct Hd as [Hne Hd].
  rewrite filter_cons_False by (cbn; congruence). by apply IH.
Qed.

Lemma filter_date_last (rows : list (string * float)) d :
  d ∈ rows.*1 -> is_Some (last (filter (fun r => r.1 = d) rows)).
Proof.
  intros Hd. apply list_elem_of_fmap in Hd as ([d' p] & -> & Hin).
  apply last_is_Some. intros Hnil.
  assert (Hf : (d', p) ∈ filter (fun r => r.1 = (d', p).1) rows)
    by (by apply list_elem_of_filter).
  rewrite Hnil in Hf. by apply elem_of_nil in Hf.
Qed.

Lemma drop_duplicates_last_rows rows d p :
  (d, p) ∈ drop_duplicates_last rows
  <-> last (filter (fun r => r.1 = d) rows) = Some (d, p).
Proof.
  induction rows as [|row rest IH]; cbn [drop_duplicates_last].
  - split; [by intros ?%elem_of_nil | done].
  - destruct (decide (row.1 = d)) as [Hd|Hd].
    + rewrite filter_cons_True by done.
      case_decide as Hin.
      * rewrite IH. rewrite Hd in Hin.
        destruct (filter_date_last rest d Hin) as [r Hr].
        destruct (filter (fun r => r.1 = d) rest) as [|r' l] eqn:E; [done|].
        done.
      * rewrite Hd in Hin. rewrite (filter_date_nil rest d Hin). cbn.
        rewrite elem_of_cons. split.
        -- intros [<-|Hrest]; [done|].
           exfalso. apply Hin. apply drop_duplicates_last_dates.
           apply list_elem_of_fmap. by exists (d, p).
        -- intros [= ->]. by left.
    + rewrite filter_cons_False by done.
      case_decide as Hin; [done|].
      rewrite elem_of_cons, IH. split; [|by right].
      intros [<-|?]; [done|done].
Qed.

Lemma drop_duplicates_last_id rows :
  NoDup rows.*1 -> drop_duplicates_last rows = rows.
Proof.
  induction rows as [|row rest IH]; cbn; [done|].
  intros [Hnot Hnd]%NoDup_cons. rewrite decide_False by done. by rewrite IH.
Qed.

Lemma sublist_same_length {A} (l1 l2 : list A) :
  l1 `sublist_of` l2 -> length l1 = length l2 -> l1 = l2.
Proof.
  induction 1 as [|x l1 l2 Hsub IH|x l1 l2 Hsub IH]; cbn; intros Hlen.
  - done.
  - f_equal. apply IH. lia.
  - apply sublist_length in Hsub. lia.
Qed.

(** X15.  The frame of an answer has one row for each date of the answer,
    in the answer's order, and the price of a date is the one of the last
    entry of that date. *)
Theorem frame_of_chart_last_price date_of_ms crypto_id (prices : list (Z * float)) :
  let dated := (fun row : Z * float => (date_of_ms row.1, row.2)) <$> prices in
  let df := frame_of_chart date_of_ms crypto_id prices in
  column_name df = crypto_id /\
  NoDup (price_rows df).*1 /\
  (forall d, d ∈ (price_rows df).*1
             <-> exists ms p, (ms, p) ∈ prices /\ date_of_ms ms = d) /\
  price_rows df `sublist_of` dated /\
  (forall d p, (d, p) ∈ price_rows df
               <-> last (filter (fun r => r.1 = d) dated) = Some (d, p)).
Proof.
  intros dated df. cbn [df frame_of_chart column_name price_rows]. fold dated.
  split; [done|]. split; [apply drop_duplicates_last_NoDup|].
  split; [|split; [apply drop_duplicates_last_sublist|apply drop_duplicates_last_rows]].
  intros d. rewrite drop_duplicates_last_dates. unfold dated.
  rewrite <- list_fmap_compose, list_elem_of_fmap. split.
  - intros ([ms p] & -> & Hin). by exists ms, p.
  - intros (ms & p & Hin & <-). by exists (ms, p).
Qed.

(** X16.  The frame never has more rows than the answer has entries, and
    it has them all exactly when no two entries fall on one date. *)
Theorem frame_of_chart_row_count date_of_ms crypto_id (prices : list (Z * float)) :
  let dated := (fun row : Z * float => (date_of_ms row.1, row.2)) <$> prices in
  let df := frame_of_chart date_of_ms crypto_id prices in
  (length (price_rows df) <= length prices)%nat /\
  (price_rows df = dated <-> NoDup (date_of_ms <$> prices.*1)) /\
  (length (price_rows df) = length prices <-> NoDup (date_of_ms <$> prices.*1)).
Proof.
  intros dated df. cbn [df frame_of_chart column_name price_rows]. fold dated.
  assert (Hdates : date_of_ms <$> prices.*1 = dated.*1).
  { unfold dated. by rewrite <- !list_fmap_compose. }
  assert (Hlen : length dated = length prices) by (unfold dated; by rewrite length_fmap).
  pose proof (drop_duplicates_last_sublist dated) as Hsub.
  assert (Hid : drop_duplicates_last dated = dated <-> NoDup (date_of_ms <$> prices.*1)).
  { rewrite Hdates. split.
    - intros <-. apply drop_duplicates_last_NoDup.
    - apply drop_duplicates_last_id. }
  split; [rewrite <- Hlen; by apply sublist_length|]. split; [done|].
  rewrite <- Hid, <- Hlen. split; [|by intros ->].
  intros Heq. by apply sublist_same_length.
Qed.

(** ** [fetch_top_cryptos_by_market_cap] *)

Lemma has_column_true {V} (records : list (gmap string V)) c :
  has_column V records c = true <-> exists r, r ∈ records /\ is_Some (r !! c).
Proof.
  unfold has_column. rewrite bool_decide_eq_true, Exists_exists. done.
Qed.

Lemma run_fetch_top {V} vs_currency limit (env : Env (markets_response V) unit) :
  fetch_top_cryptos_by_market_cap V vs_currency limit env
  = let env' := mkEnv (net env) (sent env ++ [markets_request vs_currency limit])
                      (slept env) (files env) (stdout env) in
    match net env (length (sent env)) with
    | Unreachable _ e => (Raised (RequestError e), env')
    | Markets _ records =>
        if forallb (has_column V records) market_columns
        then (Returned (select_columns V records), env')
        else (Raised (PyError KeyError), env')
    end.
Proof.
  unfold fetch_top_cryptos_by_market_cap.
  erewrite io_bind_returned; [| reflexivity].
  destruct (net env (length (sent env))) as [e|records]; [done|].
  by destruct (forallb _ _).
Qed.

(** X17.  When the answer is a list of records in which each of the six
    columns occurs, the function returns one row for each record, in
    order and whatever [limit] is, with the record's six values and a
    missing value where the record has none. *)
Theorem fetch_top_cryptos_table {V} vs_currency limit
    (env : Env (markets_response V) unit) records :
  net env (length (sent env)) = Markets V records ->
  (forall c, c ∈ market_columns -> exists r, r ∈ records /\ is_Some (r !! c)) ->
  exists rows env',
    fetch_top_cryptos_by_market_cap V vs_currency limit env = (Returned rows, env') /\
    sent env' = sent env ++ [markets_request vs_currency limit] /\
    length rows = length records /\
    (forall i r, records !! i = Some r ->
       rows !! i = Some [r !! "id"; r !! "symbol"; r !! "name"; r !! "current_price";
                         r !! "market_cap";
                         r !! "price_change_percentage_24h_in_currency"]).
Proof.
  intros Hnet Hcols. rewrite run_fetch_top, Hnet. cbn zeta.
  assert (forallb (has_column V records) market_columns = true) as ->.
  { apply forallb_forall. intros c Hc. apply has_column_true, Hcols.
    by apply list_elem_of_In. }
  eexists _, _. split; [reflexivity|]. cbn [sent]. split; [done|].
  unfold select_columns. split; [by rewrite length_fmap|].
  intros i r Hr. by rewrite list_lookup_fmap, Hr.
Qed.

Lemma fetch_top_cryptos_table_witness :
  let env : Env (markets_response string) unit := fresh_env (fun _ => Markets string two_markets) in
  exists rows env',
    fetch_top_cryptos_by_market_cap string "usd" 1 env = (Returned rows, env') /\
    sent env' = sent env ++ [markets_request "usd" 1] /\
    length rows = length two_markets /\
    (forall i r, two_markets !! i = Some r ->
       rows !! i = Some [r !! "id"; r !! "symbol"; r !! "name"; r !! "current_price";
                         r !! "market_cap";
                         r !! "price_change_percentage_24h_in_currency"]).
Proof.
  apply (fetch_top_cryptos_table "usd" 1
           (fresh_env (fun _ => Markets string two_markets)) two_markets).
  - reflexivity.
  - intros c Hc. exists (default ∅ (two_markets !! 0%nat)).
    split; [by left|].
    unfold market_columns in Hc.
    repeat (apply elem_of_cons in Hc as [->|Hc]; [by eexists|]).
    by apply elem_of_nil in Hc.
Defined.

(** X18.  An exception of [requests.get] is not caught and the request is
    not repeated: it leaves the function after one request, with nothing
    printed and no sleep. *)
Theorem fetch_top_cryptos_request_error {V} vs_currency limit
    (env : Env (markets_response V) unit) e :
  net env (length (sent env)) = Unreachable V e ->
  exists env',
    fetch_top_cryptos_by_market_cap V vs_currency limit env
    = (Raised (RequestError e), env') /\
    sent env' = sent env ++ [markets_request vs_currency limit] /\
    slept env' = slept env /\
    stdout env' = stdout env.
Proof.
  intros Hnet. rewrite run_fetch_top, Hnet. by eexists.
Qed.

Lemma fetch_top_cryptos_request_error_witness :
  let env : Env (markets_response string) unit :=
    fresh_env (fun _ => Unreachable string (ConnectionError "connection reset")) in
  exists env',
    fetch_top_cryptos_by_market_cap string "usd" 50 env
    = (Raised (RequestError (ConnectionError "connection reset")), env') /\
    sent env' = sent env ++ [markets_request "usd" 50] /\
    slept env' = slept env /\
    stdout env' = stdout env.
Proof.
  apply (fetch_top_cryptos_request_error "usd" 50
           (fresh_env (fun _ => Unreachable string (ConnectionError "connection reset")))
           (ConnectionError "connection reset")).
  reflexivity.
Defined.

(** X19.  When one of the six columns occurs in no record of the answer,
    as for an empty list of records, the selection raises KeyError. *)
Theorem fetch_top_cryptos_missing_column {V} vs_currency limit
    (env : Env (markets_response V) unit) records c :
  net env (length (sent env)) = Markets V records ->
  c ∈ market_columns ->
  (forall r, r ∈ records -> r !! c = None) ->
  exists env',
    fetch_top_cryptos_by_market_cap V vs_currency limit env
    = (Raised (PyError KeyError), env') /\
    sent env' = sent env ++ [markets_request vs_currency limit].
Proof.
  intros Hnet Hc Hmissing. rewrite run_fetch_top, Hnet. cbn zeta.
  assert (forallb (has_column V records) market_columns = false) as ->; [|by eexists].
  apply not_true_is_false. intros Hall.
  rewrite forallb_forall in Hall.
  specialize (Hall c (proj1 (list_elem_of_In _ _) Hc)).
  apply has_column_true in Hall as (r & Hr & Hsome).
  rewrite (Hmissing r Hr) in Hsome. by destruct Hsome.
Qed.

Lemma fetch_top_cryptos_missing_column_witness :
  let env : Env (markets_response string) unit := fresh_env (fun _ => Markets string []) in
  exists env',
    fetch_top_cryptos_by_market_cap string "usd" 50 env
    = (Raised (PyError KeyError), env') /\
    sent env' = sent env ++ [markets_request "usd" 50].
Proof.
  apply (fetch_top_cryptos_missing_column "usd" 50
           (fresh_env (fun _ => Markets string [])) [] "id").
  - reflexivity.
  - by left.
  - by intros r ?%elem_of_nil.
Defined.
